(** * media_importer: date resolution, duplicate detection and placement

    A shallow embedding of [MediaImporter] (media_importer.py) and the
    properties of its placement engine.  The file system, the EXIF reader,
    the MD5 digest and the clock conversions are modelled as far as the
    importer observes them; every function of the class keeps its Python
    name. *)

From Stdlib Require Import ZArith Lia Ascii String List Sorted.
From stdpp Require Import base decidable option list gmap strings pretty.

Local Open Scope string_scope.

(** ** Strings as Python uses them here *)

Module PyStr.

(** [str.lstrip('.')] *)
Fixpoint lstrip_dots (s : string) : string :=
  match s with
  | String "."%char s' => lstrip_dots s'
  | _ => s
  end.

(** [str.rfind('.')]: index of the last dot, [None] for Python's -1. *)
Fixpoint rfind_dot (s : string) : option nat :=
  match s with
  | EmptyString => None
  | String c s' =>
      match rfind_dot s' with
      | Some i => Some (S i)
      | None => if Ascii.eqb c "."%char then Some 0%nat else None
      end
  end.

(** [s[i:]] and [s[:i]] *)
Definition slice_from (i : nat) (s : string) : string :=
  substring i (String.length s - i) s.
Definition slice_to (i : nat) (s : string) : string :=
  substring 0 i s.




End PyStr.

(** ** pathlib: a path is the list of its components *)

Module Pathlib.

Abbreviation path := (list string).

(** [p / name] *)
Definition joinpath (p : path) (name : string) : path := (p ++ [name])%list.

(** [PurePath.name]: the final component, empty for the root. *)
Definition name (p : path) : string := List.last p "".

(** [PurePath.suffix] (3.14): the name is stripped of leading dots
    first, then cut at its last dot. *)
Definition suffix (p : path) : string :=
  let n := PyStr.lstrip_dots (name p) in
  match PyStr.rfind_dot n with
  | None => ""
  | Some i => PyStr.slice_from i n
  end.

(** [PurePath.stem] (3.14): the name up to its last dot, provided
    something other than dots is left. *)
Definition stem (p : path) : string :=
  let n := name p in
  match PyStr.rfind_dot n with
  | Some i =>
      let st := PyStr.slice_to i n in
      match PyStr.lstrip_dots st with
      | EmptyString => n
      | _ => st
      end
  | None => n
  end.

(** [a in p.parents or a == p] *)
Fixpoint is_prefix (a p : path) : bool :=
  match a, p with
  | [], _ => true
  | x :: a', y :: p' => String.eqb x y && is_prefix a' p'
  | _ :: _, [] => false
  end.

(** Order of [PurePath.__lt__]: the component lists, compared
    lexicographically, each component by code point. *)
Fixpoint path_compare (p q : path) : comparison :=
  match p, q with
  | [], [] => Eq
  | [], _ :: _ => Lt
  | _ :: _, [] => Gt
  | x :: p', y :: q' =>
      match String.compare x y with
      | Eq => path_compare p' q'
      | c => c
      end
  end.

Definition path_leb (p q : path) : bool :=
  match path_compare p q with Gt => false | _ => true end.

End Pathlib.

Import Pathlib.

(** ** hashlib.md5 (RFC 1321) on 32-bit words held in [Z] *)

Module Md5.

Local Open Scope Z_scope.

Definition wrap32 (x : Z) : Z := x mod 2 ^ 32.
Definition not32 (x : Z) : Z := Z.lxor x 0xffffffff.
Definition rotl32 (x c : Z) : Z :=
  wrap32 (Z.lor (Z.shiftl x c) (Z.shiftr x (32 - c))).

Definition K : list Z :=
  [ 0xd76aa478; 0xe8c7b756; 0x242070db; 0xc1bdceee; 0xf57c0faf; 0x4787c62a; 0xa8304613; 0xfd469501;
    0x698098d8; 0x8b44f7af; 0xffff5bb1; 0x895cd7be; 0x6b901122; 0xfd987193; 0xa679438e; 0x49b40821;
    0xf61e2562; 0xc040b340; 0x265e5a51; 0xe9b6c7aa; 0xd62f105d; 0x02441453; 0xd8a1e681; 0xe7d3fbc8;
    0x21e1cde6; 0xc33707d6; 0xf4d50d87; 0x455a14ed; 0xa9e3e905; 0xfcefa3f8; 0x676f02d9; 0x8d2a4c8a;
    0xfffa3942; 0x8771f681; 0x6d9d6122; 0xfde5380c; 0xa4beea44; 0x4bdecfa9; 0xf6bb4b60; 0xbebfbc70;
    0x289b7ec6; 0xeaa127fa; 0xd4ef3085; 0x04881d05; 0xd9d4d039; 0xe6db99e5; 0x1fa27cf8; 0xc4ac5665;
    0xf4292244; 0x432aff97; 0xab9423a7; 0xfc93a039; 0x655b59c3; 0x8f0ccc92; 0xffeff47d; 0x85845dd1;
    0x6fa87e4f; 0xfe2ce6e0; 0xa3014314; 0x4e0811a1; 0xf7537e82; 0xbd3af235; 0x2ad7d2bb; 0xeb86d391 ].

Definition shifts : list Z :=
  [ 7; 12; 17; 22; 7; 12; 17; 22; 7; 12; 17; 22; 7; 12; 17; 22;
    5; 9; 14; 20; 5; 9; 14; 20; 5; 9; 14; 20; 5; 9; 14; 20;
    4; 11; 16; 23; 4; 11; 16; 23; 4; 11; 16; 23; 4; 11; 16; 23;
    6; 10; 15; 21; 6; 10; 15; 21; 6; 10; 15; 21; 6; 10; 15; 21 ].

(** little-endian bytes of a word, and back *)
Fixpoint le_bytes (n : nat) (x : Z) : list Z :=
  match n with
  | O => []
  | S n' => Z.land x 0xff :: le_bytes n' (Z.shiftr x 8)
  end.
Fixpoint le_word (bs : list Z) : Z :=
  match bs with
  | [] => 0
  | b :: bs' => Z.lor b (Z.shiftl (le_word bs') 8)
  end.

Definition pad (msg : list Z) : list Z :=
  let n := Z.of_nat (length msg) in
  (msg ++ [0x80] ++ repeat 0 (Z.to_nat ((55 - n) mod 64))
       ++ le_bytes 8 (8 * n))%list.

(** the sixteen words of one 64-byte block *)
Fixpoint words (n : nat) (block : list Z) : list Z :=
  match n with
  | O => []
  | S n' => le_word (take 4 block) :: words n' (drop 4 block)
  end.

Definition state : Type := Z * Z * Z * Z.

Definition round (M : list Z) (st : state) (i : nat) : state :=
  let '(a, b, c, d) := st in
  let iz := Z.of_nat i in
  let '(f, g) :=
    if (i <? 16)%nat then (Z.lor (Z.land b c) (Z.land (not32 b) d), iz)
    else if (i <? 32)%nat then
      (Z.lor (Z.land d b) (Z.land (not32 d) c), (5 * iz + 1) mod 16)
    else if (i <? 48)%nat then (Z.lxor (Z.lxor b c) d, (3 * iz + 5) mod 16)
    else (Z.lxor c (Z.lor b (not32 d)), (7 * iz) mod 16) in
  let f' := wrap32 (f + a + nth i K 0 + nth (Z.to_nat g) M 0) in
  (d, wrap32 (b + rotl32 f' (nth i shifts 0)), b, c).

Definition compress (st : state) (block : list Z) : state :=
  let '(a0, b0, c0, d0) := st in
  let '(a, b, c, d) := fold_left (round (words 16 block)) (seq 0 64) st in
  (wrap32 (a0 + a), wrap32 (b0 + b), wrap32 (c0 + c), wrap32 (d0 + d)).

Fixpoint blocks (n : nat) (bs : list Z) : list (list Z) :=
  match n with
  | O => []
  | S n' => take 64 bs :: blocks n' (drop 64 bs)
  end.

Definition init : state := (0x67452301, 0xefcdab89, 0x98badcfe, 0x10325476).

Definition digest (msg : list Z) : list Z :=
  let p := pad msg in
  let '(a, b, c, d) := fold_left compress (blocks (length p / 64) p) init in
  (le_bytes 4 a ++ le_bytes 4 b ++ le_bytes 4 c ++ le_bytes 4 d)%list.

Definition hex_digit (x : Z) : ascii :=
  nth (Z.to_nat x) (list_ascii_of_string "0123456789abcdef") "0"%char.

Fixpoint hex (bs : list Z) : string :=
  match bs with
  | [] => EmptyString
  | b :: bs' =>
      String (hex_digit (Z.shiftr b 4)) (String (hex_digit (Z.land b 0xf)) (hex bs'))
  end.

(** The hash object: the bytes fed to it so far. *)
Definition md5 : Type := list Byte.byte.
Definition new : md5 := [].
Definition update (h : md5) (chunk : list Byte.byte) : md5 := (h ++ chunk)%list.
Definition hexdigest (h : md5) : string :=
  hex (digest (map (fun b => Z.of_N (Byte.to_N b)) h)).

End Md5.

(** [b"..."] literals *)
Definition bytes (s : string) : list Byte.byte := list_byte_of_string s.


(** ** datetime: strptime, fromtimestamp, strftime *)

Module Datetime.

Local Open Scope Z_scope.

Record datetime : Type := mk_datetime
  { year : Z; month : Z; day : Z; hour : Z; minute : Z; second : Z }.

Definition is_leap (y : Z) : bool :=
  ((y mod 4 =? 0) && negb (y mod 100 =? 0)) || (y mod 400 =? 0).

Definition days_in_month (y m : Z) : Z :=
  if m =? 2 then (if is_leap y then 29 else 28)
  else if (m =? 4) || (m =? 6) || (m =? 9) || (m =? 11) then 30
  else 31.

(** The constructor's range checks; [None] stands for [ValueError]. *)
Definition make (y m d hh mm ss : Z) : option datetime :=
  if (1 <=? y) && (y <=? 9999) && (1 <=? m) && (m <=? 12)
     && (1 <=? d) && (d <=? days_in_month y m)
     && (0 <=? hh) && (hh <=? 23) && (0 <=? mm) && (mm <=? 59)
     && (0 <=? ss) && (ss <=? 59)
  then Some (mk_datetime y m d hh mm ss)
  else None.

(** *** The regular expression [_strptime] builds for
    ["%Y:%m:%d %H:%M:%S"], matched with backtracking. *)

(** a character class, as an inclusive range of characters *)
Definition cls : Type := ascii * ascii.
Definition in_cls (k : cls) (c : ascii) : bool :=
  (nat_of_ascii (fst k) <=? nat_of_ascii c)%nat
  && (nat_of_ascii c <=? nat_of_ascii (snd k))%nat.

Definition digit : cls := ("0"%char, "9"%char).
Definition one (c : ascii) : cls := (c, c).
Definition rng (a b : ascii) : cls := (a, b).

(** matches a sequence of classes at the head of [s]; returns the
    matched text and the rest *)
Fixpoint match_seq (ks : list cls) (s : list ascii)
  : option (list ascii * list ascii) :=
  match ks, s with
  | [], _ => Some ([], s)
  | k :: ks', c :: s' =>
      if in_cls k c then
        match match_seq ks' s' with
        | Some (m, r) => Some (c :: m, r)
        | None => None
        end
      else None
  | _ :: _, [] => None
  end.

(** [int(text)] of a matched group: decimal digits, blanks ignored *)
Definition int_of (m : list ascii) : Z :=
  fold_left (fun acc c => if in_cls digit c
                          then 10 * acc + (Z.of_nat (nat_of_ascii c) - 48)
                          else acc) m 0.

(** a group [(?P<x>a1|a2|...)] followed by the rest [k] of the pattern:
    the alternatives are tried in order, the first one after which the
    rest matches wins *)
Fixpoint group {R : Type} (alts : list (list cls))
    (k : Z -> list ascii -> option R) (s : list ascii) : option R :=
  match alts with
  | [] => None
  | a :: alts' =>
      match match_seq a s with
      | Some (m, r) =>
          match k (int_of m) r with
          | Some v => Some v
          | None => group alts' k s
          end
      | None => group alts' k s
      end
  end.

(** a literal character of the pattern *)
Definition lit {R : Type} (c : ascii) (k : list ascii -> option R)
    (s : list ascii) : option R :=
  match s with
  | c' :: s' => if Ascii.eqb c c' then k s' else None
  | [] => None
  end.

(** [\s] on ASCII text *)
Definition is_space (c : ascii) : bool :=
  let n := nat_of_ascii c in
  ((9 <=? n) && (n <=? 13) || (28 <=? n) && (n <=? 32))%nat.

Fixpoint skip_spaces (s : list ascii) : list ascii :=
  match s with
  | c :: s' => if is_space c then skip_spaces s' else s
  | [] => []
  end.

(** [\s+]: what follows it in the pattern starts with a digit, so only
    the longest run of blanks can lead to a match *)
Definition spaces {R : Type} (k : list ascii -> option R)
    (s : list ascii) : option R :=
  match s with
  | c :: s' => if is_space c then k (skip_spaces s') else None
  | [] => None
  end.

Definition re_Y : list (list cls) := [[digit; digit; digit; digit]].
Definition re_m : list (list cls) :=
  [[one "1"; rng "0" "2"]; [one "0"; rng "1" "9"]; [rng "1" "9"]].
Definition re_d : list (list cls) :=
  [[one "3"; rng "0" "1"]; [rng "1" "2"; digit]; [one "0"; rng "1" "9"];
   [rng "1" "9"]; [one " "; rng "1" "9"]].
Definition re_H : list (list cls) :=
  [[one "2"; rng "0" "3"]; [rng "0" "1"; digit]; [digit]].
Definition re_M : list (list cls) := [[rng "0" "5"; digit]; [digit]].
Definition re_S : list (list cls) :=
  [[one "6"; rng "0" "1"]; [rng "0" "5"; digit]; [digit]].

(** [format_regex.match(date_str)]: the six fields and the end of the
    match *)
Definition regex_match (s : list ascii) : option (Z * Z * Z * Z * Z * Z * list ascii) :=
  group re_Y (fun y => lit ":" (
  group re_m (fun m => lit ":" (
  group re_d (fun d => spaces (
  group re_H (fun hh => lit ":" (
  group re_M (fun mm => lit ":" (
  group re_S (fun ss r => Some (y, m, d, hh, mm, ss, r)))))))))))) s.

(** [datetime.strptime(date_str, "%Y:%m:%d %H:%M:%S")]; [None] stands
    for [ValueError] (no match, unconverted data, or a field out of
    range). *)
Definition strptime (date_str : string) : option datetime :=
  match regex_match (list_ascii_of_string date_str) with
  | Some (y, m, d, hh, mm, ss, []) => make y m d hh mm ss
  | _ => None
  end.

(** [datetime.fromtimestamp(ts)] for whole seconds, in a process whose
    local zone is UTC: the civil date of the day number, then the time
    of day. *)
Definition civil_from_days (days : Z) : Z * Z * Z :=
  let z := days + 719468 in
  let era := z / 146097 in
  let doe := z - era * 146097 in
  let yoe := (doe - doe / 1460 + doe / 36524 - doe / 146096) / 365 in
  let doy := doe - (365 * yoe + yoe / 4 - yoe / 100) in
  let mp := (5 * doy + 2) / 153 in
  let d := doy - (153 * mp + 2) / 5 + 1 in
  let m := if mp <? 10 then mp + 3 else mp - 9 in
  let y := yoe + era * 400 + (if m <=? 2 then 1 else 0) in
  (y, m, d).

Definition fromtimestamp (ts : Z) : datetime :=
  let '(y, m, d) := civil_from_days (ts / 86400) in
  let s := ts mod 86400 in
  mk_datetime y m d (s / 3600) (s mod 3600 / 60) (s mod 60).

(** zero-padded decimal, as [strftime] prints [%Y] (width 4) and
    [%m], [%d] (width 2) *)
Definition zero_pad (width : nat) (n : Z) : string :=
  let s := pretty (Z.to_N n) in
  string_of_list_ascii (repeat "0"%char (width - String.length s)) +:+ s.

Definition strftime_Y (dt : datetime) : string := zero_pad 4 (year dt).
Definition strftime_m (dt : datetime) : string := zero_pad 2 (month dt).
Definition strftime_d (dt : datetime) : string := zero_pad 2 (day dt).

End Datetime.

Import Datetime.

(** ** The file system the importer runs against *)

Module Fs.

(** A regular file: its bytes, its modification time (whole seconds
    since the epoch) and the tags [exifread.process_file] finds in it. *)
Record file : Type := mk_file
  { f_data : list Byte.byte;
    f_mtime : Z;
    f_exif : gmap string string }.

Inductive node : Type :=
| File (f : file)
| Dir.

(** The system calls that can fail with [OSError] on a given path. *)
Inductive io_op : Type := op_stat | op_open | op_mkdir | op_copy.

Record stat_result : Type := mk_stat { st_size : Z; st_mtime : Z }.

(** [nodes] maps every existing path to what is there; [fault t op p]
    tells that at time [t] the call [op] on [p] fails with [OSError]
    (permissions, a card that stopped answering, ...); [now] is the
    current time; [dir_stat] is what [stat] reports for a directory. *)
Record filesystem : Type := mk_fs
  { nodes : gmap path node;
    fault : nat -> io_op -> path -> bool;
    now : nat;
    dir_stat : stat_result }.

Definition faulty (fs : filesystem) (op : io_op) (p : path) : bool :=
  fault fs (now fs) op p.

(** Time passes: the importer has gone on to its next file. *)
Definition tick (fs : filesystem) : filesystem :=
  {| nodes := nodes fs; fault := fault fs; now := S (now fs);
     dir_stat := dir_stat fs |}.

(** A call returns or raises [OSError]. *)
Inductive res (A : Type) : Type :=
| Ok (a : A)
| OSError.
Arguments Ok {A} a.
Arguments OSError {A}.

Definition set_nodes (fs : filesystem) (m : gmap path node) : filesystem :=
  {| nodes := m; fault := fault fs; now := now fs; dir_stat := dir_stat fs |}.

(** [os.stat(p)] *)
Definition stat (fs : filesystem) (p : path) : res stat_result :=
  if faulty fs op_stat p then OSError
  else match nodes fs !! p with
       | Some (File f) =>
           Ok {| st_size := Z.of_nat (length (f_data f)); st_mtime := f_mtime f |}
       | Some Dir => Ok (dir_stat fs)
       | None => OSError
       end.

(** [Path.exists()], [Path.is_file()], [Path.is_dir()]: [stat], with
    every [OSError] read as "no". *)
Definition exists_ (fs : filesystem) (p : path) : bool :=
  match stat fs p with Ok _ => true | OSError => false end.

Definition is_file (fs : filesystem) (p : path) : bool :=
  negb (faulty fs op_stat p)
  && match nodes fs !! p with Some (File _) => true | _ => false end.

Definition is_dir (fs : filesystem) (p : path) : bool :=
  negb (faulty fs op_stat p)
  && match nodes fs !! p with Some Dir => true | _ => false end.

(** [open(p, "rb")], giving the file that is read *)
Definition open_rb (fs : filesystem) (p : path) : res file :=
  if faulty fs op_open p then OSError
  else match nodes fs !! p with
       | Some (File f) => Ok f
       | _ => OSError
       end.

(** [root.rglob("*")]: everything below [root], in the order the
    system lists it; nothing when [root] is not a directory. *)
Definition rglob (fs : filesystem) (root : path) : list path :=
  if is_dir fs root then
    filter (fun p => is_prefix root p = true /\ p <> root)
           (map fst (map_to_list (nodes fs)))
  else [].

(** [os.mkdir(p)]: the parent must be a directory and [p] must be free. *)
Inductive mkdir_error : Type := FileNotFound | OtherOSError.

Definition os_mkdir (fs : filesystem) (p : path)
  : filesystem + mkdir_error :=
  if faulty fs op_mkdir p then inr OtherOSError
  else match nodes fs !! p with
       | Some _ => inr OtherOSError
       | None =>
           match p, nodes fs !! removelast p with
           | [], _ => inr FileNotFound
           | _ :: _, Some Dir => inl (set_nodes fs (<[p := Dir]> (nodes fs)))
           | _ :: _, Some (File _) => inr OtherOSError
           | _ :: _, None => inr FileNotFound
           end
       end.

(** [Path.mkdir(parents=False, exist_ok=True)] *)
Definition mkdir_here (fs : filesystem) (p : path) : res unit * filesystem :=
  match os_mkdir fs p with
  | inl fs' => (Ok tt, fs')
  | inr _ => if is_dir fs p then (Ok tt, fs) else (OSError, fs)
  end.

(** [Path.mkdir(parents=True, exist_ok=True)], on the reversed path:
    a missing parent is created first, then the directory itself. *)
Fixpoint mkdir_parents_rev (fs : filesystem) (rp : list string)
  : res unit * filesystem :=
  let p := rev rp in
  match os_mkdir fs p with
  | inl fs' => (Ok tt, fs')
  | inr FileNotFound =>
      match rp with
      | [] => (OSError, fs)
      | _ :: rp' =>
          match mkdir_parents_rev fs rp' with
          | (Ok _, fs') => mkdir_here fs' p
          | (OSError, fs') => (OSError, fs')
          end
      end
  | inr OtherOSError => if is_dir fs p then (Ok tt, fs) else (OSError, fs)
  end.

Definition mkdir_parents (fs : filesystem) (p : path) : res unit * filesystem :=
  mkdir_parents_rev fs (rev p).

(** [shutil.copy2(src, dst)]: a directory [dst] receives the file under
    its own name; copying a file onto itself is refused; the source is
    opened for reading and the target for writing, then bytes and
    times are copied.  A copy that fails does so before a byte is
    written. *)
Definition copy2 (fs : filesystem) (src dst : path) : res unit * filesystem :=
  let dst := if is_dir fs dst then joinpath dst (name src) else dst in
  if bool_decide (src = dst) then (OSError, fs)
  else match open_rb fs src with
       | OSError => (OSError, fs)
       | Ok f =>
           if faulty fs op_copy dst then (OSError, fs)
           else match nodes fs !! dst, nodes fs !! removelast dst with
                | Some Dir, _ => (OSError, fs)
                | _, Some Dir => (Ok tt, set_nodes fs (<[dst := File f]> (nodes fs)))
                | _, _ => (OSError, fs)
                end
       end.

End Fs.

Import Fs.

(** ** class MediaImporter *)

Local Open Scope Z_scope.

(** [self.stats] *)
Record stats_t : Type := mk_stats
  { copied : Z; skipped : Z; errors : Z; total_size : Z }.

(** [self]: the configuration and the counters of one importer. *)
Record MediaImporter : Type := mk_importer
  { source : path;
    video_source : option path;
    destination : path;
    dry_run : bool;
    stats : stats_t }.

(** [MediaImporter(source, destination, dry_run, video_source)] *)
Definition init (src dst : path) (dry : bool) (vsrc : option path) : MediaImporter :=
  {| source := src; video_source := vsrc; destination := dst; dry_run := dry;
     stats := mk_stats 0 0 0 0 |}.

Definition set_stats (self : MediaImporter) (s : stats_t) : MediaImporter :=
  {| source := source self; video_source := video_source self;
     destination := destination self; dry_run := dry_run self; stats := s |}.

(** [self.stats["skipped"] += 1] and its siblings *)
Definition incr_skipped (self : MediaImporter) : MediaImporter :=
  let s := stats self in
  set_stats self (mk_stats (copied s) (skipped s + 1) (errors s) (total_size s)).
Definition incr_copied (self : MediaImporter) : MediaImporter :=
  let s := stats self in
  set_stats self (mk_stats (copied s + 1) (skipped s) (errors s) (total_size s)).
Definition incr_errors (self : MediaImporter) : MediaImporter :=
  let s := stats self in
  set_stats self (mk_stats (copied s) (skipped s) (errors s + 1) (total_size s)).
Definition add_total_size (self : MediaImporter) (n : Z) : MediaImporter :=
  let s := stats self in
  set_stats self (mk_stats (copied s) (skipped s) (errors s) (total_size s + n)).

Definition photo_extensions : list string :=
  [".arw"; ".ARW"; ".jpg"; ".jpeg"; ".JPG"; ".JPEG";
   ".dng"; ".DNG"; ".tif"; ".tiff"; ".TIF"; ".TIFF"]%string.

Definition video_extensions : list string :=
  [".mp4"; ".MP4"; ".mov"; ".MOV"; ".mts"; ".MTS"; ".m2ts"; ".M2TS"]%string.

Definition skip_extensions : list string :=
  [".xml"; ".XML"; ".bup"; ".BUP"; ".ifo"; ".IFO"]%string.

Definition is_photo_file (file_path : path) : bool :=
  bool_decide (suffix file_path ∈ photo_extensions).

Definition is_video_file (file_path : path) : bool :=
  bool_decide (suffix file_path ∈ video_extensions).

(** The tags of [get_media_date], in order of preference. *)
Definition date_tags : list string :=
  ["EXIF DateTimeOriginal"; "EXIF DateTimeDigitized"; "Image DateTime"]%string.

(** The [for tag_name in ...] loop: [Some] is the [return] inside it,
    [None] is the loop running to its end. *)
Fixpoint first_tag_date (tags : gmap string string) (names : list string)
  : option datetime :=
  match names with
  | [] => None
  | tag_name :: rest =>
      match tags !! tag_name with
      | Some date_str =>
          match strptime date_str with
          | Some d => Some d
          | None => first_tag_date tags rest
          end
      | None => first_tag_date tags rest
      end
  end.

(** The fallback at the end of [get_media_date], also the whole of the
    video branch. *)
Definition mtime_date (fs : filesystem) (file_path : path) : option datetime :=
  match stat fs file_path with
  | Ok st => Some (fromtimestamp (st_mtime st))
  | OSError => None
  end.

Definition get_media_date (fs : filesystem) (file_path : path) : option datetime :=
  if is_video_file file_path then mtime_date fs file_path
  else
    match open_rb fs file_path with
    | Ok f =>
        match first_tag_date (f_exif f) date_tags with
        | Some d => Some d
        | None => mtime_date fs file_path
        end
    | OSError => mtime_date fs file_path
    end.

(** [while chunk := f.read(chunk_size): md5.update(chunk)]; [rest] is
    what the file object has not yet handed out.  [None]: the loop is
    still running when the fuel is spent. *)
Fixpoint read_chunks (fuel : nat) (chunk_size : nat) (rest : list Byte.byte)
    (md5 : Md5.md5) : option Md5.md5 :=
  match fuel with
  | O => None
  | S fuel' =>
      match take chunk_size rest with
      | [] => Some md5
      | chunk => read_chunks fuel' chunk_size (drop chunk_size rest)
                             (Md5.update md5 chunk)
      end
  end.

(** [get_file_hash]; the empty string is what the [except] branch
    returns.  One more round than the file has bytes is enough for the
    reading loop. *)
Definition get_file_hash_with (chunk_size : nat) (fs : filesystem)
    (file_path : path) : option string :=
  match open_rb fs file_path with
  | Ok f =>
      match read_chunks (S (length (f_data f))) chunk_size (f_data f) Md5.new with
      | Some md5 => Some (Md5.hexdigest md5)
      | None => None
      end
  | OSError => Some ""%string
  end.

Definition get_file_hash : filesystem -> path -> option string :=
  get_file_hash_with (8 * 1024).

(** [sorted(files, key=lambda x: x[0])], a stable insertion sort on the
    path. *)
Fixpoint insert_sorted (x : path * string) (l : list (path * string))
  : list (path * string) :=
  match l with
  | [] => [x]
  | y :: l' =>
      if path_leb (fst y) (fst x) then y :: insert_sorted x l'
      else x :: l
  end.

Definition sorted (l : list (path * string)) : list (path * string) :=
  fold_right insert_sorted [] (rev l).

(** The candidates one scan contributes: regular files below [root]
    whose suffix is not a side-car suffix and passes [is_media]. *)
Definition scan (fs : filesystem) (root : path) (is_media : path -> bool)
    (file_type : string) : list (path * string) :=
  map (fun item => (item, file_type))
      (filter (fun item =>
                 is_file fs item = true
                 /\ (suffix item ∉ skip_extensions)
                 /\ is_media item = true)
              (rglob fs root)).

Definition find_all_media (self : MediaImporter) (fs : filesystem)
  : list (path * string) :=
  let photos := scan fs (source self) is_photo_file "photo" in
  let videos :=
    match video_source self with
    | Some vs => if exists_ fs vs then scan fs vs is_video_file "video" else []
    | None => []
    end in
  sorted (photos ++ videos).

(** How a method call ends: it returns, an [OSError] leaves it, or the
    model's fuel for a loop is spent. *)
Inductive outcome (A : Type) : Type :=
| Returns (a : A)
| Raises
| OutOfFuel.
Arguments Returns {A} a.
Arguments Raises {A}.
Arguments OutOfFuel {A}.

(** [f"{stem}_{counter}{suffix}"] *)
Definition suffixed_name (stem suffix : string) (counter : nat) : string :=
  (stem +:+ "_" +:+ pretty counter +:+ suffix)%string.

(** [dest_dir / f"{stem}_{counter}{suffix}"] *)
Definition alternate (dest_dir : path) (stem suffix : string) (counter : nat) : path :=
  joinpath dest_dir (suffixed_name stem suffix counter).

(** The [while dest_file.exists()] loop of [organize_media]. *)
Fixpoint suffix_loop (fuel : nat) (fs : filesystem) (dest_dir : path)
    (stem suffix : string) (dest_file : path) (counter : nat) : option path :=
  match fuel with
  | O => None
  | S fuel' =>
      if exists_ fs dest_file then
        suffix_loop fuel' fs dest_dir stem suffix
                    (alternate dest_dir stem suffix counter) (S counter)
      else Some dest_file
  end.

(** Every existing path can make the loop go round once, and one more
    test ends it. *)
Definition loop_fuel (fs : filesystem) : nat := S (S (size (nodes fs))).

(** [dest_dir] of [organize_media] *)
Definition dest_dir_of (self : MediaImporter) (media_date : datetime)
    (file_type : string) : path :=
  let subfolder := if String.eqb file_type "video" then "videos" else "pictures" in
  joinpath (joinpath (joinpath (joinpath (destination self)
    (strftime_Y media_date)) (strftime_m media_date)) (strftime_d media_date))
    subfolder.

(** The tail of [organize_media], from [if self.dry_run:] on. *)
Definition copy_step (self : MediaImporter) (fs : filesystem)
    (media_path dest_dir dest_file : path)
  : outcome bool * MediaImporter * filesystem :=
  if dry_run self then (Returns true, incr_copied self, fs)
  else
    match mkdir_parents fs dest_dir with
    | (OSError, fs1) => (Returns false, incr_errors self, fs1)
    | (Ok _, fs1) =>
        match copy2 fs1 media_path dest_file with
        | (OSError, fs2) => (Returns false, incr_errors self, fs2)
        | (Ok _, fs2) =>
            match stat fs2 media_path with
            | OSError => (Returns false, incr_errors self, fs2)
            | Ok st =>
                (Returns true, incr_copied (add_total_size self (st_size st)), fs2)
            end
        end
    end.

(** What [organize_media] does once a file is found at [dest_file]. *)
Definition on_existing (self : MediaImporter) (fs : filesystem)
    (media_path dest_dir dest_file : path)
  : outcome bool * MediaImporter * filesystem :=
  match stat fs dest_file with
  | OSError => (Raises, self, fs)
  | Ok dst_st =>
      match stat fs media_path with
      | OSError => (Raises, self, fs)
      | Ok src_st =>
          if st_size dst_st =? st_size src_st then
            (Returns false, incr_skipped self, fs)
          else
            match get_file_hash fs media_path, get_file_hash fs dest_file with
            | Some source_hash, Some dest_hash =>
                if String.eqb source_hash dest_hash then
                  (Returns false, incr_skipped self, fs)
                else
                  match suffix_loop (loop_fuel fs) fs dest_dir
                          (stem media_path) (suffix media_path) dest_file 1 with
                  | Some dest_file' =>
                      copy_step self fs media_path dest_dir dest_file'
                  | None => (OutOfFuel, self, fs)
                  end
            | _, _ => (OutOfFuel, self, fs)
            end
      end
  end.

Definition organize_media (self : MediaImporter) (fs : filesystem)
    (media_path : path) (file_type : string)
  : outcome bool * MediaImporter * filesystem :=
  match get_media_date fs media_path with
  | None => (Returns false, incr_skipped self, fs)
  | Some media_date =>
      let dest_dir := dest_dir_of self media_date file_type in
      let dest_file := joinpath dest_dir (name media_path) in
      if exists_ fs dest_file then
        on_existing self fs media_path dest_dir dest_file
      else copy_step self fs media_path dest_dir dest_file
  end.

(** The [for file_path, file_type in files] loop of [import_media]; an
    exception leaving [organize_media] leaves the loop.  Time passes
    from one file to the next. *)
Fixpoint process_files (self : MediaImporter) (fs : filesystem)
    (files : list (path * string))
  : outcome unit * MediaImporter * filesystem :=
  match files with
  | [] => (Returns tt, self, fs)
  | (file_path, file_type) :: rest =>
      match organize_media self fs file_path file_type with
      | (Returns _, self', fs') => process_files self' (tick fs') rest
      | (Raises, self', fs') => (Raises, self', fs')
      | (OutOfFuel, self', fs') => (OutOfFuel, self', fs')
      end
  end.

(** [import_media]; the candidates are enumerated at one time and
    processed later. *)
Definition import_media (self : MediaImporter) (fs : filesystem)
  : outcome bool * MediaImporter * filesystem :=
  if negb (exists_ fs (source self)) then (Returns false, self, fs)
  else
    let files := find_all_media self fs in
    match files with
    | [] => (Returns false, self, fs)
    | _ :: _ =>
        match process_files self (tick fs) files with
        | (Returns _, self', fs') => (Returns true, self', fs')
        | (Raises, self', fs') => (Raises, self', fs')
        | (OutOfFuel, self', fs') => (OutOfFuel, self', fs')
        end
    end.

(** ** Finding the card, and [main] *)

(** What the process sees of its host besides the file system:
    [sys.platform], the value of [$USER] if it is set, and the
    directories that this user may not list. *)
Record host : Type := mk_host
  { platform : string;
    user : option string;
    denied : path -> bool }.

(** The text between the slashes of a path string; [cur] is the
    component being read. *)
Fixpoint components (s : string) (cur : string) : list string :=
  match s with
  | EmptyString => [cur]
  | String c s' =>
      if Ascii.eqb c "/" then cur :: components s' ""
      else components s' (cur +:+ String c "")
  end.

(** [Path(s)] for an absolute [s]: empty components and [.] are
    dropped. *)
Definition Path (s : string) : path :=
  filter (fun x => x <> ""%string /\ x <> "."%string) (components s "").

(** [f"{username}"]: [None] prints as ["None"]. *)
Definition format_user (username : option string) : string :=
  match username with Some u => u | None => "None" end.

(** How [d.iterdir()] ends: with the entries of the directory, in the
    order the system lists them, or with [PermissionError], or with
    another [OSError] (no such directory, not a directory). *)
Inductive listing : Type :=
| Listed (entries : list path)
| PermissionError
| OtherError.

Definition iterdir (h : host) (fs : filesystem) (d : path) : listing :=
  if denied h d then PermissionError
  else match nodes fs !! d with
       | Some Dir =>
           Listed (filter (fun p => p <> [] /\ removelast p = d)
                          (map fst (map_to_list (nodes fs))))
       | _ => OtherError
       end.

(** The [for media_path in media_paths] loop of [find_sd_card_paths];
    [None] when an exception other than [PermissionError] leaves it. *)
Fixpoint linux_search (h : host) (fs : filesystem) (media_paths : list path)
    (search_paths : list path) : option (list path) :=
  match media_paths with
  | [] => Some search_paths
  | media_path :: rest =>
      if exists_ fs media_path then
        match iterdir h fs media_path with
        | Listed entries => linux_search h fs rest (search_paths ++ entries)
        | PermissionError => linux_search h fs rest search_paths
        | OtherError => None
        end
      else linux_search h fs rest search_paths
  end.

(** The [for path in search_paths] loop of [find_sd_card_paths]. *)
Fixpoint find_loop (fs : filesystem) (search_paths : list path)
    (dcim_path video_path : option path) : option path * option path :=
  match search_paths with
  | [] => (dcim_path, video_path)
  | p :: rest =>
      if is_dir fs p then
        let potential_dcim := joinpath p "DCIM" in
        let dcim_path :=
          if exists_ fs potential_dcim && negb (bool_decide (is_Some dcim_path))
          then Some potential_dcim else dcim_path in
        let potential_video :=
          joinpath (joinpath (joinpath p "PRIVATE") "M4ROOT") "CLIP" in
        let video_path :=
          if exists_ fs potential_video && negb (bool_decide (is_Some video_path))
          then Some potential_video else video_path in
        if bool_decide (is_Some dcim_path) && bool_decide (is_Some video_path)
        then (dcim_path, video_path)
        else find_loop fs rest dcim_path video_path
      else find_loop fs rest dcim_path video_path
  end.

Definition find_sd_card_paths (h : host) (fs : filesystem)
  : outcome (option path * option path) :=
  if String.eqb (platform h) "darwin" then
    if exists_ fs (Path "/Volumes") then
      match iterdir h fs (Path "/Volumes") with
      | Listed entries => Returns (find_loop fs entries None None)
      | _ => Raises
      end
    else Returns (find_loop fs [] None None)
  else if String.prefix "linux" (platform h) then
    let username := format_user (user h) in
    match linux_search h fs
            [Path ("/media/" +:+ username); Path "/media"; Path "/mnt";
             Path ("/run/media/" +:+ username)] [] with
    | Some search_paths => Returns (find_loop fs search_paths None None)
    | None => Raises
    end
  else Returns (find_loop fs [] None None).

(** The arguments [argparse] hands to [main]. *)
Record arguments : Type := mk_arguments
  { arg_destination : path;
    arg_source : option path;
    arg_video_source : option path;
    arg_dry_run : bool;
    arg_verbose : bool }.

(** The end of [main]: the run, and [sys.exit(0 if success else 1)]. *)
Definition run_and_exit (importer : MediaImporter) (fs : filesystem)
  : outcome Z * filesystem :=
  match import_media importer fs with
  | (Returns success, _, fs') => (Returns (if success then 0 else 1), fs')
  | (Raises, _, fs') => (Raises, fs')
  | (OutOfFuel, _, fs') => (OutOfFuel, fs')
  end.

(** [main]: the exit status of the process, unless an exception ends
    it. *)
Definition main (h : host) (args : arguments) (fs : filesystem)
  : outcome Z * filesystem :=
  match arg_source args with
  | Some source =>
      run_and_exit (init source (arg_destination args) (arg_dry_run args)
                         (arg_video_source args)) fs
  | None =>
      match find_sd_card_paths h fs with
      | Returns (Some source, video_source) =>
          run_and_exit (init source (arg_destination args) (arg_dry_run args)
                             video_source) fs
      | Returns (None, _) => (Returns 1, fs)
      | Raises => (Raises, fs)
      | OutOfFuel => (OutOfFuel, fs)
      end
  end.

(** ** Conditions on a run *)


(** No call ever fails for a reason other than the state of the tree. *)
Definition no_faults (fs : filesystem) : Prop :=
  forall t op p, fault fs t op p = false.





(** ** Sample worlds

    A card with photos under [card/DCIM], a destination [dest] whose
    directory for 28 November 2025 exists already. *)

Module Sample.

Local Open Scope string_scope.

Definition card : path := ["card"; "DCIM"].
Definition dest : path := ["dest"].
Definition day_dir : path := ["dest"; "2025"; "11"; "28"; "pictures"].

Definition tree : list (path * node) :=
  [ ([], Dir); (["card"], Dir); (card, Dir); (dest, Dir);
    (["dest"; "2025"], Dir); (["dest"; "2025"; "11"], Dir);
    (["dest"; "2025"; "11"; "28"], Dir); (day_dir, Dir) ].

(** a photo taken at [date]; its modification time is
    2025-11-28 14:30:45 UTC *)
Definition photo (data date : string) : file :=
  mk_file (bytes data) 1764340245 {[ "EXIF DateTimeOriginal" := date ]}.

(** a file without metadata *)
Definition plain (data : string) : file := mk_file (bytes data) 1764340245 ∅.

Definition no_fault : nat -> io_op -> path -> bool := fun _ _ _ => false.

Definition under (d : path) (fl : list (string * file)) : list (path * node) :=
  map (fun nf => (joinpath d (fst nf), File (snd nf))) fl.

Definition world (on_card at_dest : list (string * file))
    (flt : nat -> io_op -> path -> bool) : filesystem :=
  mk_fs (list_to_map (tree ++ under card on_card ++ under day_dir at_dest))
        flt 0 (mk_stat 4096 0).

Definition importer (dry : bool) : MediaImporter := init card dest dry None.

Definition img1 : path := joinpath card "IMG_0001.JPG".
Definition img2 : path := joinpath card "IMG_0002.JPG".

(** the target is taken by a file of the same size and other bytes *)
Definition same_size_world : filesystem :=
  world [("IMG_0001.JPG", photo "AAAA" "2025:11:28 14:30:45")]
        [("IMG_0001.JPG", plain "BBBB")] no_fault.

(** the target is taken by a file of another size *)
Definition collision_world : filesystem :=
  world [("IMG_0001.JPG", photo "AAAA" "2025:11:28 14:30:45")]
        [("IMG_0001.JPG", plain "BBBBBB")] no_fault.

(** as before, and alternates 1 and 2 are taken as well *)
Definition crowded_world : filesystem :=
  world [("IMG_0001.JPG", photo "AAAA" "2025:11:28 14:30:45")]
        [("IMG_0001.JPG", plain "BBBBBB"); ("IMG_0001_1.JPG", plain "C");
         ("IMG_0001_2.JPG", plain "DD")] no_fault.

(** as [collision_world], but neither file can be opened *)
Definition unreadable_world : filesystem :=
  world [("IMG_0001.JPG", photo "AAAA" "2025:11:28 14:30:45")]
        [("IMG_0001.JPG", plain "BBBBBB")]
        (fun _ op p =>
           match op with
           | op_open => bool_decide (p = img1)
                        || bool_decide (p = joinpath day_dir "IMG_0001.JPG")
           | _ => false
           end).

(** two photos on the card; once the scan is over, [stat] on the
    first one fails *)
Definition flaky_world : filesystem :=
  world [("IMG_0001.JPG", photo "AAAA" "2025:11:28 14:30:45");
         ("IMG_0002.JPG", photo "EE" "2025:11:28 14:31:00")]
        [("IMG_0001.JPG", plain "BBBBBB")]
        (fun t op p =>
           match op with
           | op_stat => (1 <=? t)%nat && bool_decide (p = img1)
           | _ => false
           end).

(** a card and an empty destination *)
Definition fresh_world : filesystem :=
  mk_fs (list_to_map
           [ ([], Dir); (["card"], Dir); (card, Dir); (dest, Dir);
             (img1, File (photo "AAAA" "2025:11:28 14:30:45"));
             (img2, File (plain "EE")) ])
        no_fault 0 (mk_stat 4096 0).

(** a Linux host with two cards mounted under [/media/ana]: the first
    has photos only, the second videos only *)
Definition linux_host : host := mk_host "linux" (Some "ana") (fun _ => false).

Definition mounted : filesystem :=
  mk_fs (list_to_map
           [ ([], Dir); (["media"], Dir); (["media"; "ana"], Dir);
             (["media"; "ana"; "A"], Dir); (["media"; "ana"; "A"; "DCIM"], Dir);
             (["media"; "ana"; "A"; "DCIM"; "IMG_0001.JPG"],
              File (photo "AAAA" "2025:11:28 14:30:45"));
             (["media"; "ana"; "B"], Dir); (["media"; "ana"; "B"; "PRIVATE"], Dir);
             (["media"; "ana"; "B"; "PRIVATE"; "M4ROOT"], Dir);
             (["media"; "ana"; "B"; "PRIVATE"; "M4ROOT"; "CLIP"], Dir);
             (["media"; "ana"; "B"; "PRIVATE"; "M4ROOT"; "CLIP"; "C0001.MP4"],
              File (plain "VVVVV"));
             (dest, Dir) ])
        no_fault 0 (mk_stat 4096 0).

End Sample.

(** * Properties *)

Local Open Scope string_scope.
(** ** The models of the library calls, on known values *)

Example suffix_jpg :
  suffix ["DCIM"; "100MSDCF"; "IMG_0001.JPG"] = ".JPG"
  /\ stem ["DCIM"; "100MSDCF"; "IMG_0001.JPG"] = "IMG_0001".
Proof. split; reflexivity. Qed.

Example suffix_hidden : suffix [".profile"] = "" /\ stem [".profile"] = ".profile".
Proof. split; reflexivity. Qed.

Example suffix_two_dots : suffix ["a.tar.gz"] = ".gz" /\ stem ["a.tar.gz"] = "a.tar".
Proof. split; reflexivity. Qed.

(** The test suite of RFC 1321, and messages around the block size. *)
Example md5_empty : Md5.hexdigest (bytes "") = "d41d8cd98f00b204e9800998ecf8427e".
Proof. vm_compute. reflexivity. Qed.

Example md5_abc : Md5.hexdigest (bytes "abc") = "900150983cd24fb0d6963f7d28e17f72".
Proof. vm_compute. reflexivity. Qed.

Example md5_message_digest :
  Md5.hexdigest (bytes "message digest") = "f96b697d7cb7938d525a2f31aaf161d0".
Proof. vm_compute. reflexivity. Qed.

Example md5_55_bytes :
  Md5.hexdigest (bytes (string_of_list_ascii (repeat "x"%char 55)))
  = "04364420e25c512fd958a70738aa8f72".
Proof. vm_compute. reflexivity. Qed.

Example md5_56_bytes :
  Md5.hexdigest (bytes (string_of_list_ascii (repeat "x"%char 56)))
  = "668a72d5ba17f08e62dabcafad6db14b".
Proof. vm_compute. reflexivity. Qed.

Example md5_120_bytes :
  Md5.hexdigest (bytes (string_of_list_ascii (repeat "x"%char 120)))
  = "fb98667f98096de92620b64f46e1c5b5".
Proof. vm_compute. reflexivity. Qed.

Example strptime_exif :
  strptime "2025:11:28 14:30:45" = Some (mk_datetime 2025 11 28 14 30 45).
Proof. vm_compute. reflexivity. Qed.

Example strptime_short_fields :
  strptime "2025:1:5  1:2:3" = Some (mk_datetime 2025 1 5 1 2 3).
Proof. vm_compute. reflexivity. Qed.

Example strptime_rejects :
  strptime "2025:02:29 14:30:45" = None
  /\ strptime "2025:11:28 14:30:60" = None
  /\ strptime "2025:11:28 24:30:00" = None
  /\ strptime "2025:11:28 14:30:45Z" = None
  /\ strptime "0000:00:00 00:00:00" = None
  /\ strptime "2025-11-28 14:30:45" = None.
Proof. repeat split; vm_compute; reflexivity. Qed.

Example fromtimestamp_values :
  fromtimestamp 0 = mk_datetime 1970 1 1 0 0 0
  /\ fromtimestamp 951782400 = mk_datetime 2000 2 29 0 0 0
  /\ fromtimestamp 1764340245 = mk_datetime 2025 11 28 14 30 45.
Proof. repeat split; vm_compute; reflexivity. Qed.

Example strftime_padding :
  strftime_Y (mk_datetime 999 1 5 0 0 0) = "0999"
  /\ strftime_m (mk_datetime 999 1 5 0 0 0) = "01"
  /\ strftime_d (mk_datetime 999 1 25 0 0 0) = "25".
Proof. repeat split; vm_compute; reflexivity. Qed.

(** A first import: the photo goes to the day of its EXIF date, the
    file without tags to the day of its modification time. *)
Example first_import :
  exists self' fs',
    import_media (Sample.importer false) Sample.fresh_world = (Returns true, self', fs')
    /\ stats self' = mk_stats 2 0 0 6
    /\ nodes fs' !! joinpath Sample.day_dir "IMG_0001.JPG"
       = Some (File (Sample.photo "AAAA" "2025:11:28 14:30:45"))
    /\ nodes fs' !! joinpath Sample.day_dir "IMG_0002.JPG"
       = Some (File (Sample.plain "EE")).
Proof.
  eexists _, _. split; [vm_compute; reflexivity|].
  repeat split; vm_compute; reflexivity.
Qed.

(** ** Strings and paths *)

Lemma string_length_app (s t : string) :
  String.length (s +:+ t) = (String.length s + String.length t)%nat.
Proof. induction s as [|c s IH]; simpl; [reflexivity | now rewrite IH]. Qed.

Lemma string_app_inj_r (t s1 s2 : string) : s1 +:+ t = s2 +:+ t -> s1 = s2.
Proof.
  revert s2. induction s1 as [|c s1 IH]; intros [|c' s2] H; simpl in H.
  - reflexivity.
  - apply (f_equal String.length) in H.
    rewrite ?string_length_app in H. simpl in H.
    rewrite ?string_length_app in H. lia.
  - apply (f_equal String.length) in H.
    rewrite ?string_length_app in H. simpl in H.
    rewrite ?string_length_app in H. lia.
  - injection H as -> H. f_equal. now apply IH.
Qed.

Lemma suffixed_name_inj (st sf : string) : Inj (=) (=) (suffixed_name st sf).
Proof.
  intros j k H. unfold suffixed_name in H.
  apply String.app_inj in H. apply String.app_inj in H.
  apply string_app_inj_r in H. now apply (inj pretty) in H.
Qed.

Lemma joinpath_inj (d : path) : Inj (=) (=) (joinpath d).
Proof.
  intros a b H. unfold joinpath in H. apply app_inv_head in H. now injection H.
Qed.

(** ** The file system calls *)

Lemma exists_stat (fs : filesystem) (p : path) :
  exists_ fs p = true <-> exists st, stat fs p = Ok st.
Proof.
  unfold exists_. destruct (stat fs p); split; try eauto; try discriminate.
  intros [st H]. discriminate.
Qed.

Lemma exists_in_nodes (fs : filesystem) (p : path) :
  exists_ fs p = true -> p ∈ dom (nodes fs).
Proof.
  unfold exists_, stat. intros H. apply elem_of_dom.
  destruct (faulty fs op_stat p); [discriminate|].
  destruct (nodes fs !! p); [eauto | discriminate].
Qed.

(** ** The suffix search of [organize_media] *)

Section SuffixSearch.

Variable fs : filesystem.
Variables (dest_dir : path) (st sf : string).

Local Abbreviation cand := (alternate dest_dir st sf).

Lemma cand_inj : Inj (=) (=) cand.
Proof.
  intros j k H. unfold alternate in H.
  apply joinpath_inj in H. now apply suffixed_name_inj in H.
Qed.

(** Not every one of the first [size + 1] alternates can exist. *)
Lemma some_alternate_free :
  exists k, (1 <= k <= S (size (nodes fs)))%nat /\ exists_ fs (cand k) = false.
Proof.
  destruct (decide (Forall (fun k => exists_ fs (cand k) = true)
                           (seq 1 (S (size (nodes fs)))))) as [Hall|Hex].
  - exfalso.
    assert (Hnd : NoDup (cand <$> seq 1 (S (size (nodes fs))))).
    { apply (NoDup_fmap_2 cand (Inj0:=cand_inj)). apply NoDup_seq. }
    assert (Hsub : (list_to_set (cand <$> seq 1 (S (size (nodes fs)))) : gset path)
                     ⊆ dom (nodes fs)).
    { intros p Hp. apply elem_of_list_to_set in Hp.
      apply list_elem_of_fmap in Hp as [k [-> Hk]].
      apply exists_in_nodes. rewrite Forall_forall in Hall. now apply Hall. }
    apply subseteq_size in Hsub.
    rewrite size_list_to_set in Hsub by exact Hnd.
    rewrite length_fmap, length_seq, size_dom in Hsub. lia.
  - apply not_Forall_Exists in Hex; [|intros k; apply _].
    apply Exists_exists in Hex as [k [Hk Hf]].
    apply elem_of_seq in Hk. exists k. split; [lia|].
    now apply not_true_is_false.
Qed.

(** The least free alternate. *)
Lemma least_alternate_free :
  exists k, (1 <= k <= S (size (nodes fs)))%nat /\ exists_ fs (cand k) = false
            /\ forall j, (1 <= j < k)%nat -> exists_ fs (cand j) = true.
Proof.
  destruct some_alternate_free as [k0 [Hk0 Hf0]].
  revert Hk0 Hf0. generalize (S (size (nodes fs))). intros N.
  induction k0 as [k0 IH] using lt_wf_ind. intros Hk0 Hf0.
  destruct (decide (Forall (fun j => exists_ fs (cand j) = true)
                           (seq 1 (k0 - 1)))) as [Hall|Hex].
  - exists k0. repeat split; try lia; [exact Hf0|].
    intros j Hj. rewrite Forall_forall in Hall. apply Hall.
    apply elem_of_seq. lia.
  - apply not_Forall_Exists in Hex; [|intros k; apply _].
    apply Exists_exists in Hex as [j [Hj Hf]].
    apply elem_of_seq in Hj.
    apply (IH j); [lia | lia | now apply not_true_is_false].
Qed.

(** The loop, started on alternate [c], walks up to the first free one. *)
Lemma suffix_loop_walk (n c fuel : nat) :
  (forall j, (c <= j < c + n)%nat -> exists_ fs (cand j) = true) ->
  exists_ fs (cand (c + n)) = false ->
  (n < fuel)%nat ->
  suffix_loop fuel fs dest_dir st sf (cand c) (S c) = Some (cand (c + n)).
Proof.
  revert c fuel. induction n as [|n IH]; intros c fuel Hocc Hfree Hfuel.
  - destruct fuel as [|fuel]; [lia|]. simpl.
    rewrite Nat.add_0_r in Hfree. rewrite Hfree. now rewrite Nat.add_0_r.
  - destruct fuel as [|fuel]; [lia|]. simpl.
    rewrite (Hocc c) by lia.
    replace (c + S n)%nat with (S c + n)%nat by lia.
    apply IH; [| | lia].
    + intros j Hj. apply Hocc. lia.
    + now replace (S c + n)%nat with (c + S n)%nat by lia.
Qed.

(** Started on an occupied [dest_file], the loop ends, with the
    alternate of the least number that is free. *)
Lemma suffix_loop_least (dest_file : path) :
  exists_ fs dest_file = true ->
  exists k, (1 <= k)%nat
    /\ suffix_loop (loop_fuel fs) fs dest_dir st sf dest_file 1 = Some (cand k)
    /\ exists_ fs (cand k) = false
    /\ forall j, (1 <= j < k)%nat -> exists_ fs (cand j) = true.
Proof.
  intros Hex. destruct least_alternate_free as [k [Hk [Hfree Hocc]]].
  exists k. repeat split; try lia; try assumption.
  unfold loop_fuel.
  change (suffix_loop (S ?f) fs dest_dir st sf dest_file 1)
    with (if exists_ fs dest_file
          then suffix_loop f fs dest_dir st sf (cand 1) 2
          else Some dest_file).
  rewrite Hex. replace k with (1 + (k - 1))%nat at 1 by lia.
  apply suffix_loop_walk.
  - intros j Hj. apply Hocc. lia.
  - now replace (1 + (k - 1))%nat with k by lia.
  - lia.
Qed.

End SuffixSearch.

(** ** Hashing *)

Lemma hex_length (bs : list Z) : String.length (Md5.hex bs) = (2 * length bs)%nat.
Proof. induction bs as [|b bs IH]; simpl; [reflexivity | rewrite IH; lia]. Qed.

Lemma digest_length (msg : list Z) : length (Md5.digest msg) = 16%nat.
Proof.
  unfold Md5.digest.
  destruct (fold_left Md5.compress _ Md5.init) as [[[a b] c] d]. reflexivity.
Qed.

(** A digest is 32 hexadecimal characters, so never the empty string
    that [get_file_hash] returns for a file it could not read. *)
Lemma hexdigest_length (h : Md5.md5) : String.length (Md5.hexdigest h) = 32%nat.
Proof. unfold Md5.hexdigest. now rewrite hex_length, digest_length. Qed.

Lemma hexdigest_nonempty (h : Md5.md5) : Md5.hexdigest h <> ""%string.
Proof.
  intros H. apply (f_equal String.length) in H.
  rewrite hexdigest_length in H. discriminate.
Qed.

(** The reading loop ends and has fed the whole file to the hash,
    whatever the (positive) chunk size. *)
Lemma read_chunks_all (chunk_size : nat) (rest : list Byte.byte) :
  (0 < chunk_size)%nat ->
  forall (fuel : nat) (md5 : Md5.md5),
    (length rest < fuel)%nat ->
    read_chunks fuel chunk_size rest md5 = Some (md5 ++ rest)%list.
Proof.
  intros Hpos fuel. revert rest.
  induction fuel as [|fuel IH]; intros rest md5 Hfuel; [lia|].
  simpl. destruct (take chunk_size rest) as [|b chunk] eqn:Htake.
  - destruct rest as [|b rest]; [now rewrite app_nil_r|].
    destruct chunk_size; [lia | discriminate].
  - rewrite <- Htake. rewrite IH.
    + unfold Md5.update. now rewrite <- app_assoc, take_drop.
    + rewrite length_drop.
      assert (length (take chunk_size rest) <> 0)%nat by (rewrite Htake; discriminate).
      rewrite length_take in H. lia.
Qed.

Lemma get_file_hash_with_spec (chunk_size : nat) (fs : filesystem) (p : path) :
  (0 < chunk_size)%nat ->
  get_file_hash_with chunk_size fs p =
    Some match open_rb fs p with
         | Ok f => Md5.hexdigest (f_data f)
         | OSError => ""%string
         end.
Proof.
  intros Hpos. unfold get_file_hash_with. destruct (open_rb fs p) as [f|]; [|reflexivity].
  rewrite read_chunks_all by (try assumption; lia). reflexivity.
Qed.

Lemma get_file_hash_spec (fs : filesystem) (p : path) :
  get_file_hash fs p =
    Some match open_rb fs p with
         | Ok f => Md5.hexdigest (f_data f)
         | OSError => ""%string
         end.
Proof. apply get_file_hash_with_spec. lia. Qed.

(** The chunk size is a tunable without meaning. *)
Lemma get_file_hash_chunk_size (n m : nat) (fs : filesystem) (p : path) :
  (0 < n)%nat -> (0 < m)%nat ->
  get_file_hash_with n fs p = get_file_hash_with m fs p.
Proof. intros Hn Hm. now rewrite !get_file_hash_with_spec. Qed.

(** ** The branches of [organize_media] *)

Local Open Scope string_scope.

(** A file is found at the target and has the size of the candidate:
    the candidate is skipped, and neither file is opened. *)
Lemma on_existing_same_size self fs media_path dest_dir dest_file dst_st src_st :
  stat fs dest_file = Ok dst_st ->
  stat fs media_path = Ok src_st ->
  st_size dst_st = st_size src_st ->
  on_existing self fs media_path dest_dir dest_file
  = (Returns false, incr_skipped self, fs).
Proof.
  intros Hd Hs Heq. unfold on_existing. rewrite Hd, Hs, Heq, Z.eqb_refl. reflexivity.
Qed.

(** The sizes differ and the two hash strings are equal: skipped. *)
Lemma on_existing_same_hash self fs media_path dest_dir dest_file dst_st src_st :
  stat fs dest_file = Ok dst_st ->
  stat fs media_path = Ok src_st ->
  st_size dst_st <> st_size src_st ->
  get_file_hash fs media_path = get_file_hash fs dest_file ->
  on_existing self fs media_path dest_dir dest_file
  = (Returns false, incr_skipped self, fs).
Proof.
  intros Hd Hs Hne Hh. unfold on_existing. rewrite Hd, Hs.
  apply Z.eqb_neq in Hne. rewrite Hne.
  rewrite Hh, get_file_hash_spec, String.eqb_refl. reflexivity.
Qed.

(** The sizes differ and so do the hash strings: the candidate goes to
    the alternate of the least free number. *)
Lemma on_existing_collision self fs media_path dest_dir dest_file dst_st src_st :
  stat fs dest_file = Ok dst_st ->
  stat fs media_path = Ok src_st ->
  st_size dst_st <> st_size src_st ->
  get_file_hash fs media_path <> get_file_hash fs dest_file ->
  exists k : nat,
    let alt := alternate dest_dir (stem media_path) (suffix media_path) k in
    (1 <= k)%nat
    /\ on_existing self fs media_path dest_dir dest_file
       = copy_step self fs media_path dest_dir alt
    /\ exists_ fs alt = false
    /\ forall j, (1 <= j < k)%nat ->
         exists_ fs (alternate dest_dir (stem media_path) (suffix media_path) j)
         = true.
Proof.
  intros Hd Hs Hne Hh.
  destruct (suffix_loop_least fs dest_dir (stem media_path) (suffix media_path)
              dest_file) as [k [Hk [Hloop [Hfree Hocc]]]].
  { apply exists_stat. eauto. }
  exists k. cbn zeta. repeat split; try assumption.
  unfold on_existing. rewrite Hd, Hs.
  apply Z.eqb_neq in Hne. rewrite Hne.
  rewrite !get_file_hash_spec in *.
  destruct (String.eqb_spec
              match open_rb fs media_path with
              | Ok f => Md5.hexdigest (f_data f) | OSError => "" end
              match open_rb fs dest_file with
              | Ok f => Md5.hexdigest (f_data f) | OSError => "" end) as [E|E].
  - exfalso. apply Hh. now rewrite E.
  - now rewrite Hloop.
Qed.

(** The three ways [copy_step] ends. *)
Lemma copy_step_cases self fs media_path dest_dir dest_file :
  let r := copy_step self fs media_path dest_dir dest_file in
  (dry_run self = true /\ r = (Returns true, incr_copied self, fs))
  \/ (dry_run self = false /\ exists fs', r = (Returns false, incr_errors self, fs'))
  \/ (dry_run self = false /\ exists fs' n,
        r = (Returns true, incr_copied (add_total_size self n), fs')).
Proof.
  unfold copy_step. destruct (dry_run self); [left; auto|].
  destruct (mkdir_parents fs dest_dir) as [[[]|] fs1]; [|right; left; eauto].
  destruct (copy2 fs1 media_path dest_file) as [[[]|] fs2]; [|right; left; eauto].
  destruct (stat fs2 media_path) as [st|]; [|right; left; eauto].
  right; right; eauto.
Qed.

(** [organize_media] never runs its loops out of fuel. *)
Lemma on_existing_fuel self fs media_path dest_dir dest_file self' fs' :
  exists_ fs dest_file = true ->
  on_existing self fs media_path dest_dir dest_file <> (OutOfFuel, self', fs').
Proof.
  intros Hex. apply exists_stat in Hex as [dst_st Hd].
  destruct (stat fs media_path) as [src_st|] eqn:Hs.
  - destruct (decide (st_size dst_st = st_size src_st)) as [Heq|Hne].
    + now rewrite (on_existing_same_size _ _ _ _ _ _ _ Hd Hs Heq).
    + destruct (decide (get_file_hash fs media_path = get_file_hash fs dest_file))
        as [Hh|Hh].
      * now rewrite (on_existing_same_hash _ _ _ _ _ _ _ Hd Hs Hne Hh).
      * destruct (on_existing_collision self _ _ dest_dir _ _ _ Hd Hs Hne Hh)
          as [k [_ [-> _]]].
        pose proof (copy_step_cases self fs media_path dest_dir
          (alternate dest_dir (stem media_path) (suffix media_path) k))
          as [[_ ->]|[[_ [? ->]]|[_ [? [? ->]]]]]; discriminate.
  - unfold on_existing. rewrite Hd, Hs. discriminate.
Qed.

Lemma organize_media_fuel self fs media_path file_type self' fs' :
  organize_media self fs media_path file_type <> (OutOfFuel, self', fs').
Proof.
  unfold organize_media. destruct (get_media_date fs media_path) as [d|]; [|discriminate].
  cbn zeta. destruct (exists_ fs _) eqn:Hex.
  - now apply on_existing_fuel.
  - pose proof (copy_step_cases self fs media_path (dest_dir_of self d file_type)
      (joinpath (dest_dir_of self d file_type) (name media_path)))
      as [[_ ->]|[[_ [? ->]]|[_ [? [? ->]]]]]; discriminate.
Qed.

(** ** Classification by extension *)










(** ** Date resolution *)

Lemma photo_is_not_video (p : path) : is_photo_file p = true -> is_video_file p = false.
Proof.
  unfold is_photo_file, is_video_file. intros H. apply bool_decide_eq_true in H.
  apply bool_decide_eq_false. unfold photo_extensions in H.
  repeat (apply elem_of_cons in H as [->|H]; [apply (bool_decide_unpack _); vm_compute; exact I|]).
  now apply elem_of_nil in H.
Qed.






(** ** Placement *)

(** The collision branch, as [organize_media] reaches it. *)
Lemma collision_suffix_least_aux (self : MediaImporter) (fs : filesystem)
    (media_path : path) (file_type : string) (d : datetime)
    (dst_st src_st : stat_result) :
  get_media_date fs media_path = Some d ->
  stat fs (joinpath (dest_dir_of self d file_type) (name media_path)) = Ok dst_st ->
  stat fs media_path = Ok src_st ->
  st_size dst_st <> st_size src_st ->
  get_file_hash fs media_path
  <> get_file_hash fs (joinpath (dest_dir_of self d file_type) (name media_path)) ->
  exists k : nat,
    (1 <= k)%nat
    /\ organize_media self fs media_path file_type
       = copy_step self fs media_path (dest_dir_of self d file_type)
           (alternate (dest_dir_of self d file_type) (stem media_path)
                      (suffix media_path) k).
Proof.
  intros Hdate Hd Hs Hne Hh.
  destruct (on_existing_collision self fs media_path (dest_dir_of self d file_type)
              _ _ _ Hd Hs Hne Hh) as [k [Hk [Hrun _]]].
  exists k. split; [assumption|].
  unfold organize_media. rewrite Hdate. cbn zeta.
  assert (Hex : exists_ fs (joinpath (dest_dir_of self d file_type) (name media_path))
                = true) by (apply exists_stat; eauto).
  now rewrite Hex.
Qed.



(** C1, as stated, fails: a target of the candidate's size is taken for
    a duplicate without a look at the bytes; here the two files have
    four bytes each, and not the same ones, and the candidate is
    skipped. *)
Lemma same_size_other_content_is_skipped :
  stat Sample.same_size_world (joinpath Sample.day_dir "IMG_0001.JPG")
  = Ok (mk_stat 4 1764340245)
  /\ stat Sample.same_size_world Sample.img1 = Ok (mk_stat 4 1764340245)
  /\ open_rb Sample.same_size_world Sample.img1
     = Ok (Sample.photo "AAAA" "2025:11:28 14:30:45")
  /\ open_rb Sample.same_size_world (joinpath Sample.day_dir "IMG_0001.JPG")
     = Ok (Sample.plain "BBBB")
  /\ f_data (Sample.photo "AAAA" "2025:11:28 14:30:45") <> f_data (Sample.plain "BBBB")
  /\ organize_media (Sample.importer false) Sample.same_size_world Sample.img1 "photo"
     = (Returns false, incr_skipped (Sample.importer false), Sample.same_size_world).
Proof.
  repeat split; try (vm_compute; reflexivity). discriminate.
Qed.

(** C1, amended: with the target path taken, equal sizes mean
    SkipDuplicate, whatever the bytes and without opening either file;
    with different sizes both files are hashed, equal digests mean
    SkipDuplicate and different digests mean Copy under a suffixed
    name. *)
Theorem placement_by_size_then_digest (self : MediaImporter) (fs : filesystem)
    (media_path : path) (file_type : string) (d : datetime)
    (dst_st src_st : stat_result) :
  get_media_date fs media_path = Some d ->
  stat fs (joinpath (dest_dir_of self d file_type) (name media_path)) = Ok dst_st ->
  stat fs media_path = Ok src_st ->
  (st_size dst_st = st_size src_st ->
   organize_media self fs media_path file_type = (Returns false, incr_skipped self, fs))
  /\ (st_size dst_st <> st_size src_st ->
      forall fsrc fdst,
        open_rb fs media_path = Ok fsrc ->
        open_rb fs (joinpath (dest_dir_of self d file_type) (name media_path)) = Ok fdst ->
        (Md5.hexdigest (f_data fsrc) = Md5.hexdigest (f_data fdst) ->
         organize_media self fs media_path file_type
         = (Returns false, incr_skipped self, fs))
        /\ (Md5.hexdigest (f_data fsrc) <> Md5.hexdigest (f_data fdst) ->
            exists k : nat,
              (1 <= k)%nat
              /\ organize_media self fs media_path file_type
                 = copy_step self fs media_path (dest_dir_of self d file_type)
                     (alternate (dest_dir_of self d file_type) (stem media_path)
                                (suffix media_path) k))).
Proof.
  intros Hdate Hd Hs.
  assert (Hex : exists_ fs (joinpath (dest_dir_of self d file_type) (name media_path))
                = true) by (apply exists_stat; eauto).
  unfold organize_media. rewrite Hdate. cbn zeta. rewrite Hex. split.
  - intros Heq. now apply (on_existing_same_size _ _ _ _ _ dst_st src_st).
  - intros Hne fsrc fdst Hos Hod. split; intros Hh.
    + apply (on_existing_same_hash _ _ _ _ _ dst_st src_st); try assumption.
      rewrite !get_file_hash_spec, Hos, Hod. now rewrite Hh.
    + destruct (on_existing_collision self fs media_path (dest_dir_of self d file_type)
                  _ _ _ Hd Hs Hne) as [k [Hk [Hrun _]]].
      { rewrite !get_file_hash_spec, Hos, Hod. congruence. }
      exists k. split; assumption.
Qed.

(** A target of another size and another digest: the candidate is
    copied under a suffixed name. *)
Lemma placement_by_size_then_digest_witness :
  exists k : nat,
    (1 <= k)%nat
    /\ organize_media (Sample.importer false) Sample.collision_world Sample.img1 "photo"
       = copy_step (Sample.importer false) Sample.collision_world Sample.img1
           Sample.day_dir (alternate Sample.day_dir "IMG_0001" ".JPG" k).
Proof.
  assert (Hdate : get_media_date Sample.collision_world Sample.img1
                  = Some (mk_datetime 2025 11 28 14 30 45))
    by (vm_compute; reflexivity).
  assert (Hd : stat Sample.collision_world
                 (joinpath (dest_dir_of (Sample.importer false)
                              (mk_datetime 2025 11 28 14 30 45) "photo")
                           (name Sample.img1))
               = Ok (mk_stat 6 1764340245))
    by (vm_compute; reflexivity).
  assert (Hs : stat Sample.collision_world Sample.img1 = Ok (mk_stat 4 1764340245))
    by (vm_compute; reflexivity).
  pose proof (placement_by_size_then_digest (Sample.importer false)
                Sample.collision_world Sample.img1 "photo"
                (mk_datetime 2025 11 28 14 30 45)
                (mk_stat 6 1764340245) (mk_stat 4 1764340245) Hdate Hd Hs)
    as [_ H].
  assert (Hos : open_rb Sample.collision_world Sample.img1
                = Ok (Sample.photo "AAAA" "2025:11:28 14:30:45"))
    by (vm_compute; reflexivity).
  assert (Hod : open_rb Sample.collision_world
                  (joinpath (dest_dir_of (Sample.importer false)
                               (mk_datetime 2025 11 28 14 30 45) "photo")
                            (name Sample.img1))
                = Ok (Sample.plain "BBBBBB"))
    by (vm_compute; reflexivity).
  pose proof (H ltac:(discriminate) _ _ Hos Hod) as [_ H'].
  apply H'. vm_compute. discriminate.
Defined.

(** ** Unreadable files *)

(** When neither file can be opened, both hash strings are empty and
    the candidate passes for a duplicate. *)
Lemma both_hashes_fail_skipped (self : MediaImporter) (fs : filesystem)
    (media_path : path) (file_type : string) (d : datetime)
    (dst_st src_st : stat_result) :
  get_media_date fs media_path = Some d ->
  stat fs (joinpath (dest_dir_of self d file_type) (name media_path)) = Ok dst_st ->
  stat fs media_path = Ok src_st ->
  st_size dst_st <> st_size src_st ->
  open_rb fs media_path = OSError ->
  open_rb fs (joinpath (dest_dir_of self d file_type) (name media_path)) = OSError ->
  organize_media self fs media_path file_type = (Returns false, incr_skipped self, fs).
Proof.
  intros Hdate Hd Hs Hne Hos Hod.
  assert (Hex : exists_ fs (joinpath (dest_dir_of self d file_type) (name media_path))
                = true) by (apply exists_stat; eauto).
  unfold organize_media. rewrite Hdate. cbn zeta. rewrite Hex.
  apply (on_existing_same_hash _ _ _ _ _ dst_st src_st); try assumption.
  now rewrite !get_file_hash_spec, Hos, Hod.
Qed.

(** When exactly one of the two cannot be opened, the hash strings
    differ and the candidate is copied under a suffixed name. *)
Lemma one_hash_fails_copied (self : MediaImporter) (fs : filesystem)
    (media_path : path) (file_type : string) (d : datetime)
    (dst_st src_st : stat_result) (f : file) :
  get_media_date fs media_path = Some d ->
  stat fs (joinpath (dest_dir_of self d file_type) (name media_path)) = Ok dst_st ->
  stat fs media_path = Ok src_st ->
  st_size dst_st <> st_size src_st ->
  (open_rb fs media_path = OSError
   /\ open_rb fs (joinpath (dest_dir_of self d file_type) (name media_path)) = Ok f)
  \/ (open_rb fs media_path = Ok f
      /\ open_rb fs (joinpath (dest_dir_of self d file_type) (name media_path)) = OSError) ->
  exists k : nat,
    (1 <= k)%nat
    /\ organize_media self fs media_path file_type
       = copy_step self fs media_path (dest_dir_of self d file_type)
           (alternate (dest_dir_of self d file_type) (stem media_path)
                      (suffix media_path) k).
Proof.
  intros Hdate Hd Hs Hne Hopen.
  destruct (collision_suffix_least_aux self fs media_path file_type d dst_st src_st)
    as [k [Hk Hrun]]; try assumption; [|exists k; split; assumption].
  rewrite !get_file_hash_spec.
  destruct Hopen as [[-> ->]|[-> ->]]; intros H; injection H as H.
  - symmetry in H. now apply hexdigest_nonempty in H.
  - now apply hexdigest_nonempty in H.
Qed.

(** C2, at the failing input: the target has another size than the
    candidate and neither file can be opened; the candidate is counted
    as skipped, not copied under a new name. *)
Theorem unreadable_pair_is_skipped :
  get_file_hash Sample.unreadable_world Sample.img1 = Some ""
  /\ get_file_hash Sample.unreadable_world (joinpath Sample.day_dir "IMG_0001.JPG")
     = Some ""
  /\ organize_media (Sample.importer false) Sample.unreadable_world Sample.img1 "photo"
     = (Returns false, incr_skipped (Sample.importer false), Sample.unreadable_world).
Proof.
  split; [|split].
  - rewrite get_file_hash_spec. vm_compute. reflexivity.
  - rewrite get_file_hash_spec. vm_compute. reflexivity.
  - apply (both_hashes_fail_skipped _ _ _ _ (mk_datetime 2025 11 28 14 30 45)
             (mk_stat 6 1764340245) (mk_stat 4 1764340245));
      try (vm_compute; reflexivity).
    discriminate.
Qed.

(** ** How a call of [organize_media] ends *)

(** The candidate is skipped, or the size check lets an [OSError]
    through, or the call ends as [copy_step] does for some target. *)
Lemma organize_media_cases (self : MediaImporter) (fs : filesystem)
    (media_path : path) (file_type : string) :
  organize_media self fs media_path file_type = (Returns false, incr_skipped self, fs)
  \/ organize_media self fs media_path file_type = (Raises, self, fs)
  \/ exists dest_dir dest_file,
       organize_media self fs media_path file_type
       = copy_step self fs media_path dest_dir dest_file.
Proof.
  unfold organize_media.
  destruct (get_media_date fs media_path) as [d|]; [|left; reflexivity].
  cbn zeta. destruct (exists_ fs _) eqn:Hex; [|right; right; eauto].
  apply exists_stat in Hex as [dst_st Hd].
  destruct (stat fs media_path) as [src_st|] eqn:Hs.
  - destruct (decide (st_size dst_st = st_size src_st)) as [Heq|Hne].
    + left. now apply (on_existing_same_size _ _ _ _ _ dst_st src_st).
    + destruct (decide (get_file_hash fs media_path
                        = get_file_hash fs (joinpath (dest_dir_of self d file_type)
                                                     (name media_path)))) as [Hh|Hh].
      * left. now apply (on_existing_same_hash _ _ _ _ _ dst_st src_st).
      * destruct (on_existing_collision self _ _ (dest_dir_of self d file_type)
                    _ _ _ Hd Hs Hne Hh) as [k [_ [Hrun _]]].
        right; right. eauto.
  - right; left. unfold on_existing. now rewrite Hd, Hs.
Qed.

(** C9: in dry-run mode a call of [organize_media] leaves the file
    system as it was (no directory made, no byte copied) and the
    [total_size] counter unchanged. *)
Theorem dry_run_leaves_no_trace (self : MediaImporter) (fs : filesystem)
    (media_path : path) (file_type : string) :
  dry_run self = true ->
  snd (organize_media self fs media_path file_type) = fs
  /\ total_size (stats (snd (fst (organize_media self fs media_path file_type))))
     = total_size (stats self).
Proof.
  intros Hdry.
  destruct (organize_media_cases self fs media_path file_type)
    as [H|[H|[dd [df H]]]]; rewrite H.
  - auto.
  - auto.
  - unfold copy_step. rewrite Hdry. auto.
Qed.

Lemma dry_run_leaves_no_trace_witness :
  snd (organize_media (Sample.importer true) Sample.collision_world Sample.img1 "photo")
  = Sample.collision_world
  /\ total_size (stats (snd (fst (organize_media (Sample.importer true)
                                    Sample.collision_world Sample.img1 "photo"))))
     = total_size (stats (Sample.importer true)).
Proof.
  apply (dry_run_leaves_no_trace (Sample.importer true) Sample.collision_world
           Sample.img1 "photo").
  reflexivity.
Defined.

(** A call that returns has added one to exactly one of [copied],
    [skipped], [errors]; it returns [True] when that one is [copied]. *)
Lemma organize_media_counts (self : MediaImporter) (fs : filesystem)
    (media_path : path) (file_type : string) (b : bool)
    (self' : MediaImporter) (fs' : filesystem) :
  organize_media self fs media_path file_type = (Returns b, self', fs') ->
  (b = true /\ copied (stats self') = copied (stats self) + 1
   /\ skipped (stats self') = skipped (stats self)
   /\ errors (stats self') = errors (stats self))
  \/ (b = false /\ copied (stats self') = copied (stats self)
      /\ skipped (stats self') = skipped (stats self) + 1
      /\ errors (stats self') = errors (stats self))
  \/ (b = false /\ copied (stats self') = copied (stats self)
      /\ skipped (stats self') = skipped (stats self)
      /\ errors (stats self') = errors (stats self) + 1).
Proof.
  intros Hrun.
  destruct (organize_media_cases self fs media_path file_type)
    as [H|[H|[dd [df H]]]]; rewrite H in Hrun.
  - injection Hrun as <- <- <-. right; left. simpl. auto.
  - discriminate.
  - pose proof (copy_step_cases self fs media_path dd df)
      as [[_ Hc]|[[_ [fs1 Hc]]|[_ [fs1 [n Hc]]]]];
      rewrite Hc in Hrun; injection Hrun as <- <- <-; simpl; auto 10.
Qed.

(** An [OSError] that leaves the call leaves the counters as they were. *)
Lemma organize_media_raises (self : MediaImporter) (fs : filesystem)
    (media_path : path) (file_type : string)
    (self' : MediaImporter) (fs' : filesystem) :
  organize_media self fs media_path file_type = (Raises, self', fs') ->
  self' = self /\ fs' = fs.
Proof.
  intros Hrun.
  destruct (organize_media_cases self fs media_path file_type)
    as [H|[H|[dd [df H]]]]; rewrite H in Hrun.
  - discriminate.
  - injection Hrun as <- <-. auto.
  - pose proof (copy_step_cases self fs media_path dd df)
      as [[_ Hc]|[[_ [fs1 Hc]]|[_ [fs1 [n Hc]]]]];
      rewrite Hc in Hrun; discriminate.
Qed.

(** The loop over the candidates: when it comes to its end, the three
    counters have grown by the number of candidates; it never runs out
    of fuel. *)
Lemma process_files_counts (files : list (path * string)) :
  forall (self : MediaImporter) (fs : filesystem) self' fs',
    process_files self fs files = (Returns tt, self', fs') ->
    copied (stats self') + skipped (stats self') + errors (stats self')
    = copied (stats self) + skipped (stats self) + errors (stats self)
      + Z.of_nat (length files).
Proof.
  induction files as [|[p t] files IH]; intros self fs self' fs' Hrun.
  - injection Hrun as <- <-. simpl. lia.
  - simpl in Hrun.
    destruct (organize_media self fs p t) as [[[b| |] self1] fs1] eqn:Horg;
      try discriminate.
    apply IH in Hrun. apply organize_media_counts in Horg.
    rewrite Hrun. cbn [length]. lia.
Qed.

Lemma process_files_fuel (files : list (path * string)) :
  forall (self : MediaImporter) (fs : filesystem) self' fs',
    process_files self fs files <> (OutOfFuel, self', fs').
Proof.
  induction files as [|[p t] files IH]; intros self fs self' fs' Hrun.
  - discriminate.
  - simpl in Hrun.
    destruct (organize_media self fs p t) as [[[b| |] self1] fs1] eqn:Horg.
    + now apply IH in Hrun.
    + discriminate.
    + now apply organize_media_fuel in Horg.
Qed.

(** A run that returns [True] has counted every candidate once. *)
Lemma import_media_counts (self : MediaImporter) (fs : filesystem) self' fs' :
  import_media self fs = (Returns true, self', fs') ->
  copied (stats self') + skipped (stats self') + errors (stats self')
  = copied (stats self) + skipped (stats self) + errors (stats self)
    + Z.of_nat (length (find_all_media self fs)).
Proof.
  unfold import_media. destruct (negb _); [discriminate|]. cbn zeta.
  destruct (find_all_media self fs) as [|c files] eqn:Hfiles; [discriminate|].
  destruct (process_files self (tick fs) (c :: files)) as [[[[]| |] self1] fs1] eqn:Hp;
    try discriminate.
  intros H. injection H as <- <-. now apply process_files_counts in Hp.
Qed.

(** ** The run *)

(** C8: [import_media] returns [False] when the photo source does not
    exist, and then nothing has been processed; it returns [False] when
    no candidate is found; in every other case it returns [True], unless
    an exception leaves it. *)
Theorem import_media_result (self : MediaImporter) (fs : filesystem) :
  (exists_ fs (source self) = false -> import_media self fs = (Returns false, self, fs))
  /\ (find_all_media self fs = [] -> import_media self fs = (Returns false, self, fs))
  /\ (exists_ fs (source self) = true -> find_all_media self fs <> [] ->
      exists self' fs',
        import_media self fs = (Returns true, self', fs')
        \/ import_media self fs = (Raises, self', fs')).
Proof.
  unfold import_media. repeat split.
  - now intros ->.
  - intros ->. now destruct (negb _).
  - intros -> Hne. simpl.
    destruct (find_all_media self fs) as [|c files] eqn:Hfiles; [congruence|].
    destruct (process_files self (tick fs) (c :: files)) as [[[[]| |] self1] fs1] eqn:Hp;
      eauto.
    now apply process_files_fuel in Hp.
Qed.

(** A card with two files and an empty destination: the run succeeds
    and copies both. *)
Lemma import_media_result_witness :
  exists self' fs',
    import_media (Sample.importer false) Sample.fresh_world = (Returns true, self', fs')
    \/ import_media (Sample.importer false) Sample.fresh_world = (Raises, self', fs').
Proof.
  pose proof (import_media_result (Sample.importer false) Sample.fresh_world)
    as [_ [_ H]].
  apply H.
  - vm_compute. reflexivity.
  - vm_compute. discriminate.
Defined.

(** C3, at the failing input: two photos are enumerated; when the first
    is processed its [stat] raises at the size check, the exception
    leaves [organize_media] and [import_media], and the second photo is
    never processed. *)
Theorem size_check_error_aborts_run :
  find_all_media (Sample.importer false) Sample.flaky_world
  = [(Sample.img1, "photo"); (Sample.img2, "photo")]
  /\ import_media (Sample.importer false) Sample.flaky_world
     = (Raises, Sample.importer false, tick Sample.flaky_world).
Proof. split; vm_compute; reflexivity. Qed.

(** C10, at the failing input: the call ends with the exception of the
    size check and none of the counters has moved. *)
Theorem size_check_error_counts_nothing :
  organize_media (Sample.importer false) (tick Sample.flaky_world) Sample.img1 "photo"
  = (Raises, Sample.importer false, tick Sample.flaky_world)
  /\ stats (Sample.importer false) = mk_stats 0 0 0 0.
Proof. split; vm_compute; reflexivity. Qed.

(** ** Running the importer twice *)


(** *** Calls on a file system without faults *)

Section NoFaults.

Variable fs : filesystem.
Hypothesis Hnf : no_faults fs.








End NoFaults.

Lemma no_faults_tick (fs : filesystem) : no_faults fs -> no_faults (tick fs).
Proof. intros H t op p. apply H. Qed.



(** *** Paths *)

Lemma is_prefix_app (a p : path) : is_prefix a p = true <-> exists l, p = (a ++ l)%list.
Proof.
  revert p. induction a as [|x a IH]; intros p; simpl.
  - split; eauto.
  - destruct p as [|y p].
    + split; [discriminate | intros [l Hl]; discriminate].
    + rewrite andb_true_iff, String.eqb_eq, IH. split.
      * intros [-> [l ->]]. eauto.
      * intros [l Hl]. injection Hl as -> ->. eauto.
Qed.

Lemma dest_dir_of_app (self : MediaImporter) (d : datetime) (t : string) :
  dest_dir_of self d t
  = (destination self
       ++ [strftime_Y d; strftime_m d; strftime_d d;
           if String.eqb t "video" then "videos" else "pictures"])%list.
Proof. unfold dest_dir_of, joinpath. now rewrite <- !app_assoc. Qed.


(** *** mkdir and copy2 when nothing is in the way *)

Lemma mkdir_parents_rev_eq (fs : filesystem) (rp : list string) :
  mkdir_parents_rev fs rp =
    match os_mkdir fs (rev rp) with
    | inl fs' => (Ok tt, fs')
    | inr FileNotFound =>
        match rp with
        | [] => (OSError, fs)
        | _ :: rp' =>
            match mkdir_parents_rev fs rp' with
            | (Ok _, fs') => mkdir_here fs' (rev rp)
            | (OSError, fs') => (OSError, fs')
            end
        end
    | inr OtherOSError => if is_dir fs (rev rp) then (Ok tt, fs) else (OSError, fs)
    end.
Proof. destruct rp; reflexivity. Qed.


(** The environment of a file system: what does not change when nodes
    are added. *)
Lemma set_nodes_fields (fs : filesystem) (m : gmap path node) :
  fault (set_nodes fs m) = fault fs /\ now (set_nodes fs m) = now fs
  /\ dir_stat (set_nodes fs m) = dir_stat fs /\ nodes (set_nodes fs m) = m.
Proof. repeat split. Qed.





(** *** The first run into an empty destination *)

Local Open Scope list_scope.

Lemma app_nonempty_ne (d l : path) : l <> [] -> d <> (d ++ l)%list.
Proof.
  intros Hl E. apply (f_equal length) in E. rewrite length_app in E.
  destruct l; [congruence | simpl in E; lia].
Qed.

Lemma dest_dir_of_destination (self self' : MediaImporter) (d : datetime) (t : string) :
  destination self' = destination self ->
  dest_dir_of self' d t = dest_dir_of self d t.
Proof. intros H. unfold dest_dir_of. now rewrite H. Qed.






(** *** The second run *)


(** *** Enumeration is not disturbed by what a run adds *)

Lemma insert_sorted_perm (x : path * string) (l : list (path * string)) :
  insert_sorted x l ≡ₚ x :: l.
Proof.
  induction l as [|y l IH]; simpl; [reflexivity|].
  destruct (path_leb (fst y) (fst x)); [|reflexivity].
  rewrite IH. apply Permutation_swap.
Qed.

Lemma sorted_perm (l : list (path * string)) : sorted l ≡ₚ l.
Proof.
  unfold sorted. transitivity (rev l); [|symmetry; apply Permutation_rev].
  induction (rev l) as [|x k IH]; simpl; [reflexivity|].
  rewrite insert_sorted_perm. now rewrite IH.
Qed.








(** * Further properties of the importer *)

(** ** Dates that do not resolve *)



(** ** The hash of a file *)

(** X2: for every positive chunk size the hash of a file that can be
    opened is the MD5 digest of its whole content, 32 characters long;
    the hash is the empty string exactly when the file cannot be opened;
    the reading loop always ends. *)
Theorem hash_of_whole_file (chunk_size : nat) (fs : filesystem) (p : path) :
  (0 < chunk_size)%nat ->
  (forall f, open_rb fs p = Ok f ->
             get_file_hash_with chunk_size fs p = Some (Md5.hexdigest (f_data f))
             /\ String.length (Md5.hexdigest (f_data f)) = 32%nat)
  /\ (get_file_hash_with chunk_size fs p = Some "" <-> open_rb fs p = OSError).
Proof.
  intros Hpos. rewrite get_file_hash_with_spec by assumption. split.
  - intros f ->. split; [reflexivity | apply hexdigest_length].
  - destruct (open_rb fs p) as [f|]; split; try reflexivity; try discriminate.
    intros H. injection H as H. now apply hexdigest_nonempty in H.
Qed.

Lemma hash_of_whole_file_witness :
  get_file_hash_with 3 Sample.collision_world Sample.img1
  = Some (Md5.hexdigest (bytes "AAAA"))
  /\ String.length (Md5.hexdigest (bytes "AAAA")) = 32%nat.
Proof.
  pose proof (hash_of_whole_file 3 Sample.collision_world Sample.img1 ltac:(lia))
    as [H _].
  apply (H (Sample.photo "AAAA" "2025:11:28 14:30:45")).
  vm_compute. reflexivity.
Defined.

(** X3: with a chunk size of zero the first read returns no byte and
    ends the loop: every file that can be opened gets the digest of the
    empty message, whatever it holds. *)
Theorem hash_with_zero_chunk (fs : filesystem) (p : path) (f : file) :
  open_rb fs p = Ok f ->
  get_file_hash_with 0 fs p = Some "d41d8cd98f00b204e9800998ecf8427e".
Proof. intros H. unfold get_file_hash_with. rewrite H. reflexivity. Qed.

Lemma hash_with_zero_chunk_witness :
  get_file_hash_with 0 Sample.collision_world Sample.img1
  = Some "d41d8cd98f00b204e9800998ecf8427e".
Proof.
  apply (hash_with_zero_chunk Sample.collision_world Sample.img1
           (Sample.photo "AAAA" "2025:11:28 14:30:45")).
  vm_compute. reflexivity.
Defined.

(** ** The three lists of extensions *)

(** X4: no extension is on two of the three lists: a photo is not a
    video, and neither has a side-car suffix, so the side-car test of
    [find_all_media] never removes a file that the kind test would
    keep. *)
Theorem media_kinds_disjoint (p : path) :
  is_photo_file p = true \/ is_video_file p = true ->
  (is_photo_file p = true -> is_video_file p = false)
  /\ (is_video_file p = true -> is_photo_file p = false)
  /\ suffix p ∉ skip_extensions.
Proof.
  unfold is_photo_file, is_video_file. intros H.
  assert (Hin : suffix p ∈ photo_extensions ++ video_extensions).
  { rewrite elem_of_app. destruct H as [H|H]; apply bool_decide_eq_true in H; auto. }
  clear H. unfold photo_extensions, video_extensions in Hin. simpl in Hin.
  repeat (apply elem_of_cons in Hin as [->|Hin];
          [split; [intros H; vm_compute in H |- *; first [reflexivity | discriminate]|];
           split; [intros H; vm_compute in H |- *; first [reflexivity | discriminate]|];
           apply (bool_decide_unpack _); vm_compute; exact I|]).
  now apply elem_of_nil in Hin.
Qed.

Lemma media_kinds_disjoint_witness :
  (is_photo_file ["C0001.MP4"] = true -> is_video_file ["C0001.MP4"] = false)
  /\ (is_video_file ["C0001.MP4"] = true -> is_photo_file ["C0001.MP4"] = false)
  /\ suffix ["C0001.MP4"] ∉ skip_extensions.
Proof. apply (media_kinds_disjoint ["C0001.MP4"]). right. reflexivity. Defined.

(** ** What a call of [organize_media] does to the file system *)

Lemma os_mkdir_inl (fs fs' : filesystem) (p : path) :
  os_mkdir fs p = inl fs' ->
  nodes fs !! p = None /\ fs' = set_nodes fs (<[p := Dir]> (nodes fs)).
Proof.
  unfold os_mkdir. destruct (faulty fs op_mkdir p); [discriminate|].
  destruct (nodes fs !! p); [discriminate|].
  destruct p as [|x p]; [discriminate|].
  destruct (nodes fs !! removelast (x :: p)) as [[|]|]; try discriminate.
  intros H. injection H as <-. auto.
Qed.

(** Whatever its outcome, [mkdir] only adds directories, at paths where
    nothing was, each one the path itself or one of its ancestors. *)
Lemma mkdir_parents_rev_grows (rp : list string) :
  forall fs r fs',
    mkdir_parents_rev fs rp = (r, fs') ->
    fault fs' = fault fs /\ now fs' = now fs /\ dir_stat fs' = dir_stat fs
    /\ forall q, nodes fs' !! q = nodes fs !! q
                 \/ (nodes fs !! q = None /\ nodes fs' !! q = Some Dir
                     /\ exists k, q = rev (drop k rp)).
Proof.
  induction rp as [|x rp IH]; intros fs r fs'; rewrite mkdir_parents_rev_eq.
  - destruct (os_mkdir fs (rev [])) as [fs1|[|]] eqn:E.
    + apply os_mkdir_inl in E as [Hnone ->]. intros H. injection H as <- <-.
      repeat split. intros q. destruct (decide (q = rev [])) as [->|Hne].
      * right. cbn [nodes set_nodes]. rewrite lookup_insert_eq.
        repeat split; [assumption|]. now exists 0%nat.
      * left. cbn [nodes set_nodes]. now rewrite lookup_insert_ne.
    + intros H. injection H as <- <-. auto.
    + destruct (is_dir fs (rev [])); intros H; injection H as <- <-; auto.
  - destruct (os_mkdir fs (rev (x :: rp))) as [fs1|[|]] eqn:E.
    + apply os_mkdir_inl in E as [Hnone ->]. intros H. injection H as <- <-.
      repeat split. intros q. destruct (decide (q = rev (x :: rp))) as [->|Hne].
      * right. cbn [nodes set_nodes]. rewrite lookup_insert_eq.
        repeat split; [assumption|]. now exists 0%nat.
      * left. cbn [nodes set_nodes]. now rewrite lookup_insert_ne.
    + destruct (mkdir_parents_rev fs rp) as [[[]|] fs1] eqn:E1;
        destruct (IH _ _ _ E1) as [Hf [Hn [Hd Hq]]].
      * unfold mkdir_here.
        assert (Hlift : forall q, nodes fs1 !! q = nodes fs !! q
                          \/ (nodes fs !! q = None /\ nodes fs1 !! q = Some Dir
                              /\ exists k, q = rev (drop k (x :: rp)))).
        { intros q. destruct (Hq q) as [H|[H1 [H2 [k ->]]]]; [now left|].
          right. repeat split; try assumption. now exists (S k). }
        destruct (os_mkdir fs1 (rev (x :: rp))) as [fs2|e] eqn:E2.
        -- apply os_mkdir_inl in E2 as [Hnone ->]. intros H. injection H as <- <-.
           cbn [fault now dir_stat nodes set_nodes]. repeat split; try assumption.
           intros q. destruct (decide (q = rev (x :: rp))) as [->|Hne].
           ++ right. rewrite lookup_insert_eq. split; [|split; [reflexivity|]].
              ** destruct (Hlift (rev (x :: rp))) as [H|[H _]]; congruence.
              ** now exists 0%nat.
           ++ rewrite lookup_insert_ne by (intros Eq; apply Hne; symmetry; exact Eq).
              apply Hlift.
        -- destruct (is_dir fs1 (rev (x :: rp))); intros H; injection H as <- <-;
             auto.
      * intros H. injection H as <- <-. repeat split; try assumption.
        intros q. destruct (Hq q) as [H|[H1 [H2 [k ->]]]]; [now left|].
        right. repeat split; try assumption. now exists (S k).
    + destruct (is_dir fs (rev (x :: rp))); intros H; injection H as <- <-; auto.
Qed.

(** [copy2] changes nothing, or puts the source file at the target, or
    below it when the target is a directory; never onto the source and
    never in the place of a directory. *)
Lemma copy2_cases (fs : filesystem) (src dst : path) (r : res unit) (fs' : filesystem) :
  copy2 fs src dst = (r, fs') ->
  (r = OSError /\ fs' = fs)
  \/ (r = Ok tt
      /\ exists dst' f,
           (dst' = dst \/ (is_dir fs dst = true /\ dst' = joinpath dst (name src)))
           /\ src <> dst'
           /\ open_rb fs src = Ok f
           /\ nodes fs !! dst' <> Some Dir
           /\ fs' = set_nodes fs (<[dst' := File f]> (nodes fs))).
Proof.
  unfold copy2.
  set (dst' := if is_dir fs dst then joinpath dst (name src) else dst).
  assert (Hdst' : dst' = dst \/ (is_dir fs dst = true /\ dst' = joinpath dst (name src))).
  { unfold dst'. destruct (is_dir fs dst); auto. }
  clearbody dst'.
  destruct (bool_decide (src = dst')) eqn:Eb.
  { intros H. injection H as <- <-. auto. }
  apply bool_decide_eq_false in Eb.
  destruct (open_rb fs src) as [f|] eqn:Eo; [|intros H; injection H as <- <-; auto].
  destruct (faulty fs op_copy dst'); [intros H; injection H as <- <-; auto|].
  destruct (nodes fs !! dst') as [[g|]|] eqn:En;
    destruct (nodes fs !! removelast dst') as [[|]|];
    intros H; injection H as <- <-; auto;
    right; (split; [reflexivity|]); exists dst', f; rewrite ?En;
    repeat split; auto; discriminate.
Qed.

(** The decision of [organize_media], which the destination alone fixes
    for every importer: skip, let the error of the size check through,
    or go on to copy to a path where nothing is seen. *)
Lemma organize_media_plan (self0 : MediaImporter) (fs : filesystem)
    (p : path) (t : string) :
  (forall self, destination self = destination self0 ->
      organize_media self fs p t = (Returns false, incr_skipped self, fs))
  \/ (forall self, destination self = destination self0 ->
        organize_media self fs p t = (Raises, self, fs))
  \/ (exists d x,
        get_media_date fs p = Some d
        /\ exists_ fs (joinpath (dest_dir_of self0 d t) x) = false
        /\ forall self, destination self = destination self0 ->
             organize_media self fs p t
             = copy_step self fs p (dest_dir_of self0 d t)
                 (joinpath (dest_dir_of self0 d t) x)).
Proof.
  destruct (get_media_date fs p) as [d|] eqn:Hdate.
  2:{ left. intros self _. unfold organize_media. now rewrite Hdate. }
  assert (Hunf : forall self, destination self = destination self0 ->
            organize_media self fs p t
            = if exists_ fs (joinpath (dest_dir_of self0 d t) (name p))
              then on_existing self fs p (dest_dir_of self0 d t)
                     (joinpath (dest_dir_of self0 d t) (name p))
              else copy_step self fs p (dest_dir_of self0 d t)
                     (joinpath (dest_dir_of self0 d t) (name p))).
  { intros self Hdst. unfold organize_media. rewrite Hdate. cbn zeta.
    now rewrite (dest_dir_of_destination self0 self). }
  destruct (exists_ fs (joinpath (dest_dir_of self0 d t) (name p))) eqn:Hex.
  2:{ right; right. exists d, (name p). repeat split; auto. }
  pose proof Hex as Hex'. apply exists_stat in Hex' as [dst_st Hd].
  destruct (stat fs p) as [src_st|] eqn:Hs.
  2:{ right; left. intros self Hdst. rewrite Hunf by assumption.
      unfold on_existing. now rewrite Hd, Hs. }
  destruct (decide (st_size dst_st = st_size src_st)) as [Heq|Hne].
  { left. intros self Hdst. rewrite Hunf by assumption.
    now apply (on_existing_same_size _ _ _ _ _ dst_st src_st). }
  destruct (decide (get_file_hash fs p
                    = get_file_hash fs (joinpath (dest_dir_of self0 d t) (name p))))
    as [Hh|Hh].
  { left. intros self Hdst. rewrite Hunf by assumption.
    now apply (on_existing_same_hash _ _ _ _ _ dst_st src_st). }
  destruct (on_existing_collision self0 fs p (dest_dir_of self0 d t) _ _ _ Hd Hs Hne Hh)
    as [k [Hk [_ [Hfree Hocc]]]].
  right; right. exists d, (suffixed_name (stem p) (suffix p) k).
  repeat split; [exact Hfree|]. intros self Hdst. rewrite Hunf by assumption.
  destruct (on_existing_collision self fs p (dest_dir_of self0 d t) _ _ _ Hd Hs Hne Hh)
    as [k' [Hk' [Hrun [Hfree' Hocc']]]].
  rewrite Hrun. f_equal. fold (alternate (dest_dir_of self0 d t) (stem p) (suffix p) k).
  f_equal.
  destruct (Nat.lt_trichotomy k k') as [Hlt|[->|Hlt]]; [|reflexivity|].
  - rewrite (Hocc' k) in Hfree by lia. discriminate.
  - rewrite (Hocc k') in Hfree' by lia. discriminate.
Qed.

(** A date resolves only for a path where something is. *)
Lemma date_resolves_exists (fs : filesystem) (p : path) (d : datetime) :
  get_media_date fs p = Some d -> is_Some (nodes fs !! p).
Proof.
  unfold get_media_date, mtime_date, stat, open_rb.
  destruct (is_video_file p).
  - destruct (faulty fs op_stat p); [discriminate|].
    destruct (nodes fs !! p); [eauto | discriminate].
  - destruct (faulty fs op_open p).
    + destruct (faulty fs op_stat p); [discriminate|].
      destruct (nodes fs !! p); [eauto | discriminate].
    + destruct (nodes fs !! p) as [[f|]|]; eauto.
      destruct (faulty fs op_stat p); discriminate.
Qed.

(** What [copy_step] does to each path: nothing; or a directory appears
    where nothing was, on the way to the target directory; or the path
    receives the source file, being the target or, when a directory sits
    at the target, the place of the file's name below it. *)
Lemma copy_step_frame (self : MediaImporter) (fs : filesystem) (p dd : path)
    (x : string) :
  fault (snd (copy_step self fs p dd (joinpath dd x))) = fault fs
  /\ now (snd (copy_step self fs p dd (joinpath dd x))) = now fs
  /\ forall q,
       nodes (snd (copy_step self fs p dd (joinpath dd x))) !! q = nodes fs !! q
       \/ (nodes fs !! q = None
           /\ nodes (snd (copy_step self fs p dd (joinpath dd x))) !! q = Some Dir
           /\ (length q <= length dd)%nat)
       \/ (q <> p /\ nodes fs !! q <> Some Dir
           /\ (exists f, nodes fs !! p = Some (File f)
                 /\ nodes (snd (copy_step self fs p dd (joinpath dd x))) !! q
                    = Some (File f))
           /\ (q = joinpath dd x
               \/ (nodes fs !! joinpath dd x = Some Dir
                   /\ q = joinpath (joinpath dd x) (name p)))).
Proof.
  unfold copy_step. destruct (dry_run self); [simpl; auto|].
  unfold mkdir_parents.
  destruct (mkdir_parents_rev fs (rev dd)) as [r1 fs1] eqn:Emk.
  destruct (mkdir_parents_rev_grows _ _ _ _ Emk) as [Hf [Hn [_ Hq]]].
  assert (Hq1 : forall q, nodes fs1 !! q = nodes fs !! q
                  \/ (nodes fs !! q = None /\ nodes fs1 !! q = Some Dir
                      /\ (length q <= length dd)%nat)).
  { intros q. destruct (Hq q) as [H|[H1 [H2 [k ->]]]]; [now left|].
    right. repeat split; try assumption.
    rewrite length_rev, length_drop, length_rev. lia. }
  assert (Hfs1 : fault fs1 = fault fs /\ now fs1 = now fs
            /\ forall q, nodes fs1 !! q = nodes fs !! q
                 \/ (nodes fs !! q = None /\ nodes fs1 !! q = Some Dir
                     /\ (length q <= length dd)%nat)
                 \/ (q <> p /\ nodes fs !! q <> Some Dir
                     /\ (exists f, nodes fs !! p = Some (File f)
                           /\ nodes fs1 !! q = Some (File f))
                     /\ (q = joinpath dd x
                         \/ (nodes fs !! joinpath dd x = Some Dir
                             /\ q = joinpath (joinpath dd x) (name p))))).
  { repeat split; try assumption. intros q. destruct (Hq1 q) as [H|H]; auto. }
  destruct r1 as [[]|]; [|exact Hfs1].
  destruct (copy2 fs1 p (joinpath dd x)) as [r2 fs2] eqn:Ecp.
  apply copy2_cases in Ecp as [[-> ->]|[-> [dst' [f [Hdst' [Hne [Hopen [Hnd ->]]]]]]]];
    [exact Hfs1|]. clear Hfs1.
  assert (Hp1 : nodes fs1 !! p = Some (File f)).
  { unfold open_rb in Hopen. destruct (faulty fs1 op_open p); [discriminate|].
    destruct (nodes fs1 !! p) as [[g|]|]; congruence. }
  assert (Hp : nodes fs !! p = Some (File f)).
  { destruct (Hq1 p) as [H|[_ [H _]]]; congruence. }
  assert (Hsame : nodes fs !! dst' = nodes fs1 !! dst').
  { destruct (Hq1 dst') as [H|[_ [H _]]]; congruence. }
  assert (Hwhere : dst' = joinpath dd x
                   \/ (nodes fs !! joinpath dd x = Some Dir
                       /\ dst' = joinpath (joinpath dd x) (name p))).
  { destruct Hdst' as [->|[Hdir ->]]; [now left|]. right. split; [|reflexivity].
    unfold is_dir in Hdir. apply andb_true_iff in Hdir as [_ Hdir].
    destruct (nodes fs1 !! joinpath dd x) as [[|]|] eqn:E1; try discriminate.
    destruct (Hq1 (joinpath dd x)) as [H|[_ [_ H]]]; [congruence|].
    unfold joinpath in H. rewrite length_app in H. simpl in H. lia. }
  destruct (stat (set_nodes fs1 (<[dst':=File f]> (nodes fs1))) p) as [st|];
    cbn [snd fault now nodes set_nodes];
    (repeat split; try assumption; intros q;
     destruct (decide (q = dst')) as [->|Hqne];
     [ right; right; rewrite lookup_insert_eq;
       split; [congruence|]; split; [congruence|]; split; [eauto|]; exact Hwhere
     | rewrite lookup_insert_ne by congruence;
       destruct (Hq1 q) as [H|H]; auto ]).
Qed.

(** X5: whatever happens, a call of [organize_media] deletes nothing,
    leaves the directories in place and the source file as it is. *)
Theorem organize_media_keeps_entries (self : MediaImporter) (fs : filesystem)
    (media_path : path) (file_type : string) :
  (forall q, is_Some (nodes fs !! q) ->
             is_Some (nodes (snd (organize_media self fs media_path file_type)) !! q))
  /\ (forall q, nodes fs !! q = Some Dir ->
                nodes (snd (organize_media self fs media_path file_type)) !! q
                = Some Dir)
  /\ nodes (snd (organize_media self fs media_path file_type)) !! media_path
     = nodes fs !! media_path.
Proof.
  destruct (organize_media_plan self fs media_path file_type)
    as [H|[H|[d [x [Hdate [_ H]]]]]]; rewrite (H self eq_refl); simpl; auto.
  destruct (copy_step_frame self fs media_path (dest_dir_of self d file_type) x)
    as [_ [_ Hq]].
  apply date_resolves_exists in Hdate as [n Hn].
  repeat split.
  - intros q [m Hm]. destruct (Hq q) as [->|[[E _]|[_ [_ [[f [_ ->]] _]]]]]; eauto.
    congruence.
  - intros q Hm. destruct (Hq q) as [->|[[E _]|[_ [E _]]]]; congruence.
  - destruct (Hq media_path) as [->|[[E _]|[E _]]]; congruence.
Qed.

(** X6: when [stat] is reliable, a call of [organize_media] never
    overwrites: every entry is left as it was. *)
Theorem organize_media_never_overwrites (self : MediaImporter) (fs : filesystem)
    (media_path : path) (file_type : string) :
  (forall q, faulty fs op_stat q = false) ->
  forall q n,
    nodes fs !! q = Some n ->
    nodes (snd (organize_media self fs media_path file_type)) !! q = Some n.
Proof.
  intros Hstat q n Hn.
  destruct (organize_media_plan self fs media_path file_type)
    as [H|[H|[d [x [Hdate [Hex H]]]]]]; rewrite (H self eq_refl); simpl; auto.
  assert (Hfree : nodes fs !! joinpath (dest_dir_of self d file_type) x = None).
  { unfold exists_, stat in Hex. rewrite Hstat in Hex.
    destruct (nodes fs !! joinpath (dest_dir_of self d file_type) x) as [[|]|];
      [discriminate | discriminate | reflexivity]. }
  destruct (copy_step_frame self fs media_path (dest_dir_of self d file_type) x)
    as [_ [_ Hq]].
  destruct (Hq q) as [->|[[E _]|[_ [_ [_ [->|[E _]]]]]]]; congruence.
Qed.

Lemma organize_media_never_overwrites_witness :
  nodes (snd (organize_media (Sample.importer false) Sample.crowded_world
                Sample.img1 "photo"))
    !! joinpath Sample.day_dir "IMG_0001_2.JPG"
  = Some (File (Sample.plain "DD")).
Proof.
  apply (organize_media_never_overwrites (Sample.importer false) Sample.crowded_world
           Sample.img1 "photo").
  - intros q. reflexivity.
  - vm_compute. reflexivity.
Defined.

(** X7: when a run that is not a dry run reports a copy, a file with the
    bytes, the modification time and the tags of the source is in the
    destination tree, at another path than the source; [copied] has
    grown by one and [total_size] by the size of the file. *)
Theorem reported_copy_is_there (self self' : MediaImporter) (fs fs' : filesystem)
    (media_path : path) (file_type : string) :
  dry_run self = false ->
  organize_media self fs media_path file_type = (Returns true, self', fs') ->
  exists dst f,
    nodes fs !! media_path = Some (File f)
    /\ nodes fs' !! dst = Some (File f)
    /\ dst <> media_path
    /\ is_prefix (destination self) dst = true
    /\ stats self'
       = mk_stats (copied (stats self) + 1) (skipped (stats self)) (errors (stats self))
                  (total_size (stats self) + Z.of_nat (length (f_data f))).
Proof.
  intros Hdry Hrun.
  destruct (organize_media_plan self fs media_path file_type)
    as [H|[H|[d [x [Hdate [Hex H]]]]]]; rewrite (H self eq_refl) in Hrun;
    try discriminate.
  pose proof (copy_step_frame self fs media_path (dest_dir_of self d file_type) x)
    as [_ [_ Hq]].
  rewrite Hrun in Hq. cbn [snd] in Hq.
  unfold copy_step in Hrun. rewrite Hdry in Hrun. unfold mkdir_parents in Hrun.
  destruct (mkdir_parents_rev fs (rev (dest_dir_of self d file_type)))
    as [[[]|] fs1] eqn:Emk; [|discriminate].
  destruct (copy2 fs1 media_path (joinpath (dest_dir_of self d file_type) x))
    as [[[]|] fs2] eqn:Ecp; [|discriminate].
  apply copy2_cases in Ecp as [[? _]|[_ [dst' [f [Hdst' [Hne [Hopen [Hnd ->]]]]]]]];
    [discriminate|].
  assert (Hp1 : nodes fs1 !! media_path = Some (File f)).
  { unfold open_rb in Hopen. destruct (faulty fs1 op_open media_path); [discriminate|].
    destruct (nodes fs1 !! media_path) as [[g|]|]; congruence. }
  unfold stat in Hrun. destruct (faulty _ op_stat media_path); [discriminate|].
  cbn [nodes set_nodes] in Hrun. rewrite lookup_insert_ne in Hrun by congruence.
  rewrite Hp1 in Hrun. injection Hrun as <- <-. cbn [nodes set_nodes] in Hq.
  exists dst', f. split; [|split; [apply lookup_insert_eq|split; [congruence|split]]].
  - destruct (Hq media_path) as [E|[[_ [E _]]|[E _]]].
    + rewrite <- E. now rewrite lookup_insert_ne by congruence.
    + rewrite lookup_insert_ne in E by congruence. congruence.
    + congruence.
  - apply is_prefix_app. rewrite dest_dir_of_app in Hdst'. unfold joinpath in Hdst'.
    destruct Hdst' as [->|[_ ->]]; rewrite <- ?app_assoc; eauto.
  - reflexivity.
Qed.

Lemma reported_copy_is_there_witness :
  exists dst f,
    nodes Sample.collision_world !! Sample.img1 = Some (File f)
    /\ nodes (snd (organize_media (Sample.importer false) Sample.collision_world
                     Sample.img1 "photo")) !! dst = Some (File f)
    /\ dst <> Sample.img1
    /\ is_prefix (destination (Sample.importer false)) dst = true
    /\ stats (snd (fst (organize_media (Sample.importer false) Sample.collision_world
                         Sample.img1 "photo")))
       = mk_stats (copied (stats (Sample.importer false)) + 1)
                  (skipped (stats (Sample.importer false)))
                  (errors (stats (Sample.importer false)))
                  (total_size (stats (Sample.importer false))
                   + Z.of_nat (length (f_data f))).
Proof.
  apply (reported_copy_is_there (Sample.importer false) _ Sample.collision_world _
           Sample.img1 "photo").
  - reflexivity.
  - vm_compute. reflexivity.
Defined.

(** X8: a dry run and a real run with the same destination decide
    alike: both skip the file, or both are left by the error of the size
    check, or the dry run reports a copy and the real run goes on to
    copy, to a path where nothing is seen. *)
Theorem dry_run_decides_like_real_run (dry real : MediaImporter) (fs : filesystem)
    (media_path : path) (file_type : string) :
  dry_run dry = true ->
  destination dry = destination real ->
  (organize_media dry fs media_path file_type = (Returns false, incr_skipped dry, fs)
   /\ organize_media real fs media_path file_type
      = (Returns false, incr_skipped real, fs))
  \/ (organize_media dry fs media_path file_type = (Raises, dry, fs)
      /\ organize_media real fs media_path file_type = (Raises, real, fs))
  \/ (exists dest_dir dest_file,
        organize_media dry fs media_path file_type = (Returns true, incr_copied dry, fs)
        /\ organize_media real fs media_path file_type
           = copy_step real fs media_path dest_dir dest_file
        /\ exists_ fs dest_file = false).
Proof.
  intros Hdry Hdst.
  destruct (organize_media_plan real fs media_path file_type)
    as [H|[H|[d [x [Hdate [Hex H]]]]]].
  - left. split; apply H; auto.
  - right; left. split; apply H; auto.
  - right; right. eexists _, _. rewrite (H dry Hdst), (H real eq_refl).
    repeat split; [|exact Hex]. unfold copy_step. now rewrite Hdry.
Qed.

Lemma dry_run_decides_like_real_run_witness :
  (organize_media (Sample.importer true) Sample.crowded_world Sample.img1 "photo"
   = (Returns false, incr_skipped (Sample.importer true), Sample.crowded_world)
   /\ organize_media (Sample.importer false) Sample.crowded_world Sample.img1 "photo"
      = (Returns false, incr_skipped (Sample.importer false), Sample.crowded_world))
  \/ (organize_media (Sample.importer true) Sample.crowded_world Sample.img1 "photo"
      = (Raises, Sample.importer true, Sample.crowded_world)
      /\ organize_media (Sample.importer false) Sample.crowded_world Sample.img1 "photo"
         = (Raises, Sample.importer false, Sample.crowded_world))
  \/ (exists dest_dir dest_file,
        organize_media (Sample.importer true) Sample.crowded_world Sample.img1 "photo"
        = (Returns true, incr_copied (Sample.importer true), Sample.crowded_world)
        /\ organize_media (Sample.importer false) Sample.crowded_world Sample.img1
             "photo"
           = copy_step (Sample.importer false) Sample.crowded_world Sample.img1
               dest_dir dest_file
        /\ exists_ Sample.crowded_world dest_file = false).
Proof.
  apply (dry_run_decides_like_real_run (Sample.importer true) (Sample.importer false)
           Sample.crowded_world Sample.img1 "photo"); reflexivity.
Defined.


(** ** The candidate list *)

Lemma elem_of_scan_gen (fs : filesystem) (root : path) (is_media : path -> bool)
    (t : string) (c : path * string) :
  c ∈ scan fs root is_media t
  <-> snd c = t
      /\ is_dir fs root = true
      /\ (exists l, l <> [] /\ fst c = root ++ l)
      /\ is_file fs (fst c) = true
      /\ (suffix (fst c) ∉ skip_extensions)
      /\ is_media (fst c) = true.
Proof.
  unfold scan, rglob.
  rewrite list_elem_of_fmap. setoid_rewrite list_elem_of_filter. split.
  - intros [item [-> [[Hfile [Hskip Hmedia]] Hin]]]. simpl.
    destruct (is_dir fs root); [|now apply elem_of_nil in Hin].
    apply list_elem_of_filter in Hin as [[Hpre Hne] _].
    apply is_prefix_app in Hpre as [l ->].
    repeat split; try assumption.
    exists l. split; [|reflexivity]. intros ->. now rewrite app_nil_r in Hne.
  - destruct c as [item t']. simpl.
    intros [-> [Hroot [[l [Hl ->]] [Hfile [Hskip Hmedia]]]]].
    exists (root ++ l). split; [reflexivity|]. split; [auto|].
    rewrite Hroot. apply list_elem_of_filter. split.
    + split; [apply is_prefix_app; eauto|].
      intros E. symmetry in E. now apply app_nonempty_ne in E.
    + unfold is_file in Hfile. apply andb_true_iff in Hfile as [_ Hfile].
      destruct (nodes fs !! (root ++ l)) as [[f|]|] eqn:E; try discriminate.
      apply list_elem_of_fmap. exists (root ++ l, File f). split; [reflexivity|].
      now apply elem_of_map_to_list.
Qed.

(** X10: the candidate list holds exactly the regular files strictly
    below the photo source that have a photo extension, labelled
    ["photo"], and, when a video source is given and is a directory, the
    regular files strictly below it that have a video extension,
    labelled ["video"]. *)
Theorem find_all_media_spec (self : MediaImporter) (fs : filesystem) (c : path * string) :
  c ∈ find_all_media self fs
  <-> (snd c = "photo"
       /\ is_dir fs (source self) = true
       /\ (exists l, l <> [] /\ fst c = source self ++ l)
       /\ is_file fs (fst c) = true
       /\ is_photo_file (fst c) = true)
      \/ (snd c = "video"
          /\ exists vs, video_source self = Some vs
                        /\ is_dir fs vs = true
                        /\ (exists l, l <> [] /\ fst c = vs ++ l)
                        /\ is_file fs (fst c) = true
                        /\ is_video_file (fst c) = true).
Proof.
  unfold find_all_media. rewrite sorted_perm, elem_of_app.
  assert (Hphoto : c ∈ scan fs (source self) is_photo_file "photo"
            <-> snd c = "photo"
                /\ is_dir fs (source self) = true
                /\ (exists l, l <> [] /\ fst c = source self ++ l)
                /\ is_file fs (fst c) = true
                /\ is_photo_file (fst c) = true).
  { rewrite elem_of_scan_gen. split.
    - intros [H1 [H2 [H3 [H4 [_ H6]]]]]. auto.
    - intros [H1 [H2 [H3 [H4 H6]]]]. repeat split; try assumption.
      apply (media_kinds_disjoint (fst c)). now left. }
  rewrite Hphoto. clear Hphoto.
  assert (Hvideo : c ∈ match video_source self with
                       | Some vs =>
                           if exists_ fs vs then scan fs vs is_video_file "video" else []
                       | None => []
                       end
            <-> snd c = "video"
                /\ exists vs, video_source self = Some vs
                              /\ is_dir fs vs = true
                              /\ (exists l, l <> [] /\ fst c = vs ++ l)
                              /\ is_file fs (fst c) = true
                              /\ is_video_file (fst c) = true).
  { destruct (video_source self) as [vs|].
    - split.
      + destruct (exists_ fs vs); [|intros H; now apply elem_of_nil in H].
        rewrite elem_of_scan_gen. intros [H1 [H2 [H3 [H4 [_ H6]]]]].
        split; [assumption|]. exists vs. auto.
      + intros [H1 [vs' [E [H2 [H3 [H4 H6]]]]]]. injection E as <-.
        assert (Hex : exists_ fs vs = true).
        { unfold is_dir in H2. apply andb_true_iff in H2 as [Hf Hn].
          unfold exists_, stat. apply negb_true_iff in Hf. rewrite Hf.
          now destruct (nodes fs !! vs) as [[|]|]. }
        rewrite Hex, elem_of_scan_gen. repeat split; try assumption.
        apply (media_kinds_disjoint (fst c)). now right.
    - split; [intros H; now apply elem_of_nil in H|].
      intros [_ [vs [E _]]]. discriminate. }
  rewrite Hvideo. reflexivity.
Qed.

(** *** The order of the candidates *)

Lemma path_compare_antisym (p q : path) :
  path_compare q p = CompOpp (path_compare p q).
Proof.
  revert q. induction p as [|x p IH]; intros [|y q]; simpl; try reflexivity.
  rewrite (String.compare_antisym y x).
  destruct (String.compare x y); simpl; auto.
Qed.

Lemma path_leb_total (p q : path) : path_leb p q = false -> path_leb q p = true.
Proof.
  unfold path_leb. rewrite (path_compare_antisym p q).
  now destruct (path_compare p q).
Qed.

Lemma string_compare_refl (x : string) : String.compare x x = Eq.
Proof.
  pose proof (String.compare_antisym x x) as H.
  destruct (String.compare x x); simpl in H; congruence.
Qed.

Lemma string_compare_lt_trans (x y z : string) :
  String.compare x y = Lt -> String.compare y z = Lt -> String.compare x z = Lt.
Proof.
  intros Hxy Hyz.
  assert (Hle : String.leb x z = true).
  { assert (H1 : String.le x y) by (unfold String.le, String.leb; now rewrite Hxy).
    assert (H2 : String.le y z) by (unfold String.le, String.leb; now rewrite Hyz).
    pose proof (transitivity H1 H2) as H3. unfold String.le in H3.
    now destruct (String.leb x z). }
  unfold String.leb in Hle. destruct (String.compare x z) eqn:E; try discriminate.
  - apply String.compare_eq_iff in E. rewrite <- E in Hyz.
    rewrite (String.compare_antisym x y), Hyz in Hxy. discriminate.
  - reflexivity.
Qed.

Lemma path_leb_trans (p q r : path) :
  path_leb p q = true -> path_leb q r = true -> path_leb p r = true.
Proof.
  unfold path_leb. revert q r.
  induction p as [|x p IH]; intros [|y q] [|z r]; simpl; try easy.
  destruct (String.compare x y) eqn:Exy; try easy;
    destruct (String.compare y z) eqn:Eyz; try easy.
  - apply String.compare_eq_iff in Exy, Eyz. subst. rewrite string_compare_refl.
    apply IH.
  - apply String.compare_eq_iff in Exy. subst. now rewrite Eyz.
  - apply String.compare_eq_iff in Eyz. subst. now rewrite Exy.
  - now rewrite (string_compare_lt_trans x y z).
Qed.

Lemma insert_sorted_sorted (x : path * string) (l : list (path * string)) :
  StronglySorted (fun a b => path_leb (fst a) (fst b) = true) l ->
  StronglySorted (fun a b => path_leb (fst a) (fst b) = true) (insert_sorted x l).
Proof.
  induction 1 as [|y l Hl IH Hy]; simpl.
  - constructor; constructor.
  - destruct (path_leb (fst y) (fst x)) eqn:E.
    + constructor; [assumption|].
      rewrite insert_sorted_perm. constructor; assumption.
    + apply path_leb_total in E. constructor; [now constructor|].
      constructor; [assumption|].
      eapply Forall_impl; [exact Hy|]. intros z Hz. simpl in Hz.
      now apply (path_leb_trans _ (fst y)).
Qed.

Lemma sorted_sorted (l : list (path * string)) :
  StronglySorted (fun a b => path_leb (fst a) (fst b) = true) (sorted l).
Proof.
  unfold sorted. induction (rev l) as [|x k IH]; simpl; [constructor|].
  now apply insert_sorted_sorted.
Qed.

Lemma scan_paths (fs : filesystem) (root : path) (is_media : path -> bool) (t : string) :
  NoDup (fst <$> scan fs root is_media t)
  /\ forall p, p ∈ fst <$> scan fs root is_media t -> is_media p = true.
Proof.
  assert (Hfst : forall l : list path, fst <$> map (fun item => (item, t)) l = l).
  { induction l as [|a l IH]; [reflexivity|]. simpl. f_equal. exact IH. }
  unfold scan. rewrite Hfst. split.
  - apply NoDup_filter. unfold rglob. destruct (is_dir fs root); [|constructor].
    apply NoDup_filter, NoDup_fst_map_to_list.
  - intros p Hp. apply list_elem_of_filter in Hp. tauto.
Qed.

(** X11: the candidates come in ascending order of their paths, in the
    order of [Path]: component by component, each by code point; and no
    path comes twice. *)
Theorem find_all_media_sorted (self : MediaImporter) (fs : filesystem) :
  StronglySorted (fun a b => path_leb (fst a) (fst b) = true) (find_all_media self fs)
  /\ NoDup (fst <$> find_all_media self fs).
Proof.
  split; [apply sorted_sorted|].
  unfold find_all_media. rewrite sorted_perm, fmap_app.
  apply NoDup_app. split; [apply scan_paths|]. split.
  - intros p Hp Hv. apply scan_paths in Hp.
    assert (Hvid : is_video_file p = true).
    { destruct (video_source self) as [vs|]; [|now apply elem_of_nil in Hv].
      destruct (exists_ fs vs); [|now apply elem_of_nil in Hv].
      now apply scan_paths in Hv. }
    apply photo_is_not_video in Hp. congruence.
  - destruct (video_source self) as [vs|]; [|constructor].
    destruct (exists_ fs vs); [|constructor]. apply scan_paths.
Qed.

(** ** The counters of a run *)

Lemma process_files_raises (files : list (path * string)) :
  forall (self : MediaImporter) (fs : filesystem) self' fs',
    process_files self fs files = (Raises, self', fs') ->
    copied (stats self) + skipped (stats self) + errors (stats self)
    <= copied (stats self') + skipped (stats self') + errors (stats self')
    < copied (stats self) + skipped (stats self) + errors (stats self)
      + Z.of_nat (length files).
Proof.
  induction files as [|[p t] files IH]; intros self fs self' fs' Hrun.
  - discriminate.
  - simpl in Hrun.
    destruct (organize_media self fs p t) as [[[b| |] self1] fs1] eqn:Horg.
    + apply IH in Hrun. apply organize_media_counts in Horg. cbn [length]. lia.
    + apply organize_media_raises in Horg as [-> _]. injection Hrun as <- _.
      cbn [length]. lia.
    + discriminate.
Qed.

(** X12: a run that returns [True] has counted every candidate exactly
    once in one of [copied], [skipped], [errors]; a run that an
    exception ends has counted fewer files than there are candidates; a
    run that returns [False] has touched neither the counters nor the
    file system. *)
Theorem run_counts (self self' : MediaImporter) (fs fs' : filesystem)
    (o : outcome bool) :
  import_media self fs = (o, self', fs') ->
  (o = Returns true ->
   copied (stats self') + skipped (stats self') + errors (stats self')
   = copied (stats self) + skipped (stats self) + errors (stats self)
     + Z.of_nat (length (find_all_media self fs)))
  /\ (o = Raises ->
      copied (stats self) + skipped (stats self) + errors (stats self)
      <= copied (stats self') + skipped (stats self') + errors (stats self')
      < copied (stats self) + skipped (stats self) + errors (stats self)
        + Z.of_nat (length (find_all_media self fs)))
  /\ (o = Returns false -> self' = self /\ fs' = fs)
  /\ o <> OutOfFuel.
Proof.
  intros Hrun. split; [|split; [|split]].
  - intros ->. now apply import_media_counts in Hrun.
  - intros ->. unfold import_media in Hrun.
    destruct (negb _); [discriminate|]. cbn zeta in Hrun.
    destruct (find_all_media self fs) as [|c files]; [discriminate|].
    destruct (process_files self (tick fs) (c :: files)) as [[[[]| |] self1] fs1] eqn:Hp;
      try discriminate.
    injection Hrun as <- <-. now apply process_files_raises in Hp.
  - intros ->. unfold import_media in Hrun.
    destruct (negb _); [injection Hrun as <- <-; auto|]. cbn zeta in Hrun.
    destruct (find_all_media self fs) as [|c files]; [injection Hrun as <- <-; auto|].
    destruct (process_files self (tick fs) (c :: files)) as [[[[]| |] self1] fs1];
      discriminate.
  - intros ->. unfold import_media in Hrun.
    destruct (negb _); [discriminate|]. cbn zeta in Hrun.
    destruct (find_all_media self fs) as [|c files]; [discriminate|].
    destruct (process_files self (tick fs) (c :: files)) as [[[[]| |] self1] fs1] eqn:Hp;
      try discriminate.
    now apply process_files_fuel in Hp.
Qed.

Lemma run_counts_witness :
  copied (stats (snd (fst (import_media (Sample.importer false) Sample.fresh_world))))
  + skipped (stats (snd (fst (import_media (Sample.importer false) Sample.fresh_world))))
  + errors (stats (snd (fst (import_media (Sample.importer false) Sample.fresh_world))))
  = copied (stats (Sample.importer false)) + skipped (stats (Sample.importer false))
    + errors (stats (Sample.importer false))
    + Z.of_nat (length (find_all_media (Sample.importer false) Sample.fresh_world)).
Proof.
  assert (Hrun : import_media (Sample.importer false) Sample.fresh_world
                 = (Returns true,
                    snd (fst (import_media (Sample.importer false) Sample.fresh_world)),
                    snd (import_media (Sample.importer false) Sample.fresh_world)))
    by (vm_compute; reflexivity).
  pose proof (run_counts _ _ _ _ _ Hrun) as [H _].
  apply H. reflexivity.
Defined.

(** ** Runs on a file system whose faults do not change *)





(** ** Finding the card *)

(** The loop over the search paths, from any state of its two
    variables: a variable that is set is never set again, one that
    is not set takes the first hit. *)
Lemma find_loop_acc (fs : filesystem) (search_paths : list path) :
  forall dcim_path video_path : option path,
    find_loop fs search_paths dcim_path video_path
    = (match dcim_path with
       | Some _ => dcim_path
       | None =>
           head (omap (fun p => if is_dir fs p && exists_ fs (joinpath p "DCIM")
                                then Some (joinpath p "DCIM") else None)
                      search_paths)
       end,
       match video_path with
       | Some _ => video_path
       | None =>
           head (omap (fun p =>
                         if is_dir fs p
                            && exists_ fs (joinpath (joinpath (joinpath p "PRIVATE")
                                                        "M4ROOT") "CLIP")
                         then Some (joinpath (joinpath (joinpath p "PRIVATE")
                                                "M4ROOT") "CLIP")
                         else None)
                      search_paths)
       end).
Proof.
  induction search_paths as [|p rest IH]; intros a b.
  - simpl. now destruct a, b.
  - cbn [find_loop omap list_omap]. destruct (is_dir fs p); cbn [andb].
    + cbn zeta.
      destruct (exists_ fs (joinpath p "DCIM")),
               (exists_ fs (joinpath (joinpath (joinpath p "PRIVATE") "M4ROOT") "CLIP")),
               a as [a|], b as [b|]; cbn; rewrite ?IH; reflexivity.
    + apply IH.
Qed.

(** X14: the two results of the search loop are found independently of
    each other: the photo folder is [p/DCIM] for the first search path
    [p] that is a directory with a [DCIM] entry, the video folder is
    [q/PRIVATE/M4ROOT/CLIP] for the first search path [q] that is a
    directory with such an entry; [None] where there is no such
    path. *)
Theorem find_loop_first_of_each (fs : filesystem) (search_paths : list path) :
  find_loop fs search_paths None None
  = (head (omap (fun p => if is_dir fs p && exists_ fs (joinpath p "DCIM")
                          then Some (joinpath p "DCIM") else None)
                search_paths),
     head (omap (fun p =>
                   if is_dir fs p
                      && exists_ fs (joinpath (joinpath (joinpath p "PRIVATE")
                                                  "M4ROOT") "CLIP")
                   then Some (joinpath (joinpath (joinpath p "PRIVATE")
                                          "M4ROOT") "CLIP")
                   else None)
                search_paths)).
Proof.
  apply find_loop_acc.
Qed.

(** X15: the photo folder and the video folder need not be on the same
    card: when the first card has a [DCIM] folder and no clip folder and
    a later card has a clip folder, the photos are taken from the first
    and the videos from the later one. *)
Theorem photo_and_video_from_two_cards (fs : filesystem) (p q : path)
    (between rest : list path) :
  is_dir fs p = true ->
  exists_ fs (joinpath p "DCIM") = true ->
  exists_ fs (joinpath (joinpath (joinpath p "PRIVATE") "M4ROOT") "CLIP") = false ->
  (forall r, r ∈ between ->
     exists_ fs (joinpath (joinpath (joinpath r "PRIVATE") "M4ROOT") "CLIP") = false) ->
  is_dir fs q = true ->
  exists_ fs (joinpath (joinpath (joinpath q "PRIVATE") "M4ROOT") "CLIP") = true ->
  find_loop fs (p :: between ++ q :: rest) None None
  = (Some (joinpath p "DCIM"),
     Some (joinpath (joinpath (joinpath q "PRIVATE") "M4ROOT") "CLIP")).
Proof.
  intros Hp Hd Hpv Hbetween Hq Hqv.
  rewrite find_loop_acc. cbn [omap list_omap]. rewrite Hp, Hd, Hpv. cbn.
  f_equal. induction between as [|r between IH].
  - cbn. now rewrite Hq, Hqv.
  - cbn [app omap list_omap]. rewrite (Hbetween r), andb_false_r.
    + apply IH. intros r' Hr'. apply Hbetween. now right.
    + now left.
Qed.

Lemma photo_and_video_from_two_cards_witness :
  find_loop Sample.mounted
    (["media"; "ana"; "A"] :: [["media"; "ana"; "DCIM"]]
       ++ ["media"; "ana"; "B"] :: [])
    None None
  = (Some ["media"; "ana"; "A"; "DCIM"],
     Some ["media"; "ana"; "B"; "PRIVATE"; "M4ROOT"; "CLIP"]).
Proof.
  apply (photo_and_video_from_two_cards Sample.mounted ["media"; "ana"; "A"]
           ["media"; "ana"; "B"] [["media"; "ana"; "DCIM"]] []).
  - vm_compute; reflexivity.
  - vm_compute; reflexivity.
  - vm_compute; reflexivity.
  - intros r Hr. apply list_elem_of_singleton in Hr as ->. vm_compute; reflexivity.
  - vm_compute; reflexivity.
  - vm_compute; reflexivity.
Defined.

(** [Path] of a string that starts with fixed components. *)
Lemma Path_under (s : string) :
  Path ("/media/" +:+ s) = ["media"] ++ Path s
  /\ Path ("/run/media/" +:+ s) = ["run"; "media"] ++ Path s
  /\ Path "/media" = ["media"] /\ Path "/mnt" = ["mnt"]
  /\ Path "/Volumes" = ["Volumes"].
Proof.
  repeat split; reflexivity.
Qed.

(** The entries of a listed directory are its children. *)
Lemma iterdir_children (h : host) (fs : filesystem) (d : path)
    (entries : list path) (p : path) :
  iterdir h fs d = Listed entries -> p ∈ entries -> p <> [] /\ removelast p = d.
Proof.
  unfold iterdir. destruct (denied h d); [discriminate|].
  destruct (nodes fs !! d) as [[f|]|]; try discriminate.
  intros [= <-] Hp. now apply list_elem_of_filter in Hp as [Hp _].
Qed.

Lemma linux_search_children (h : host) (fs : filesystem) (media_paths : list path) :
  forall (acc search_paths : list path) (roots : list path),
    linux_search h fs media_paths acc = Some search_paths ->
    (forall p, p ∈ acc -> p <> [] /\ removelast p ∈ roots) ->
    (forall m, m ∈ media_paths -> m ∈ roots) ->
    forall p, p ∈ search_paths -> p <> [] /\ removelast p ∈ roots.
Proof.
  induction media_paths as [|m rest IH]; intros acc sp roots Hrun Hacc Hroots p Hp.
  - injection Hrun as <-. now apply Hacc.
  - cbn [linux_search] in Hrun.
    assert (Hrest : forall m', m' ∈ rest -> m' ∈ roots).
    { intros m' Hm'. apply Hroots. now right. }
    destruct (exists_ fs m); [|now apply (IH acc sp roots)].
    destruct (iterdir h fs m) as [entries| |] eqn:Hit; [| |discriminate].
    + apply (IH (acc ++ entries) sp roots); auto.
      intros p' Hp'. apply elem_of_app in Hp' as [Hp'|Hp']; [now apply Hacc|].
      destruct (iterdir_children h fs m entries p' Hit Hp') as [Hne ->].
      split; [exact Hne|]. apply Hroots. now left.
    + now apply (IH acc sp roots).
Qed.

(** What the loop returns comes from its search paths. *)
Lemma find_loop_from_search_paths (fs : filesystem) (search_paths : list path)
    (dcim_path video_path : option path) :
  find_loop fs search_paths None None = (dcim_path, video_path) ->
  (forall d, dcim_path = Some d ->
     exists p, p ∈ search_paths /\ d = joinpath p "DCIM"
               /\ is_dir fs p = true /\ exists_ fs d = true)
  /\ (forall v, video_path = Some v ->
        exists p, p ∈ search_paths
                  /\ v = joinpath (joinpath (joinpath p "PRIVATE") "M4ROOT") "CLIP"
                  /\ is_dir fs p = true /\ exists_ fs v = true).
Proof.
  rewrite find_loop_first_of_each. intros [= <- <-]. split.
  - intros d Hd. apply head_Some_elem_of, list_elem_of_omap in Hd as [p [Hp Hd]].
    exists p. destruct (is_dir fs p) eqn:Hdir; [|discriminate].
    destruct (exists_ fs (joinpath p "DCIM")) eqn:Hex; [|discriminate].
    injection Hd as <-. auto.
  - intros v Hv. apply head_Some_elem_of, list_elem_of_omap in Hv as [p [Hp Hv]].
    exists p. destruct (is_dir fs p) eqn:Hdir; [|discriminate].
    destruct (exists_ fs (joinpath (joinpath (joinpath p "PRIVATE") "M4ROOT") "CLIP"))
      eqn:Hex; [|discriminate].
    injection Hv as <-. auto.
Qed.

(** X16: whatever [find_sd_card_paths] returns lies on a mounted volume:
    a photo folder is [p/DCIM] and a video folder [p/PRIVATE/M4ROOT/CLIP]
    where [p] is a directory directly inside [/Volumes] on macOS, or
    directly inside one of [/media/$USER], [/media], [/mnt],
    [/run/media/$USER] on Linux, and the folder exists; on any other
    platform nothing is found. *)
Theorem find_sd_card_paths_on_mounted_volume (h : host) (fs : filesystem)
    (dcim_path video_path : option path) :
  find_sd_card_paths h fs = Returns (dcim_path, video_path) ->
  forall found,
    (dcim_path = Some found \/ video_path = Some found) ->
    exists p,
      (dcim_path = Some found /\ found = joinpath p "DCIM"
       \/ video_path = Some found
          /\ found = joinpath (joinpath (joinpath p "PRIVATE") "M4ROOT") "CLIP")
      /\ is_dir fs p = true
      /\ exists_ fs found = true
      /\ p <> []
      /\ (platform h = "darwin" /\ removelast p = ["Volumes"]
          \/ String.prefix "linux" (platform h) = true
             /\ removelast p ∈ [ ["media"] ++ Path (format_user (user h));
                                 ["media"]; ["mnt"];
                                 ["run"; "media"] ++ Path (format_user (user h)) ]).
Proof.
  intros Hrun found Hfound.
  assert (Hloop : exists search_paths,
             find_loop fs search_paths None None = (dcim_path, video_path)
             /\ forall p, p ∈ search_paths ->
                  p <> []
                  /\ (platform h = "darwin" /\ removelast p = ["Volumes"]
                      \/ String.prefix "linux" (platform h) = true
                         /\ removelast p
                            ∈ [ ["media"] ++ Path (format_user (user h));
                                ["media"]; ["mnt"];
                                ["run"; "media"] ++ Path (format_user (user h)) ])).
  { unfold find_sd_card_paths in Hrun.
    destruct (String.eqb (platform h) "darwin") eqn:Hmac.
    - apply String.eqb_eq in Hmac.
      destruct (exists_ fs (Path "/Volumes")).
      + destruct (iterdir h fs (Path "/Volumes")) as [entries| |] eqn:Hit;
          try discriminate.
        exists entries. split; [congruence|].
        intros p Hp. destruct (iterdir_children h fs _ entries p Hit Hp) as [Hne Hr].
        split; [exact Hne|]. left. split; [exact Hmac|exact Hr].
      + exists []. split; [congruence|].
        intros p Hp. now apply elem_of_nil in Hp.
    - destruct (String.prefix "linux" (platform h)) eqn:Hlinux.
      + cbn zeta in Hrun.
        destruct (linux_search h fs _ []) as [search_paths|] eqn:Hs; [|discriminate].
        exists search_paths. split; [congruence|].
        intros p Hp.
        assert (Hroots : forall m,
                   m ∈ [ Path ("/media/" +:+ format_user (user h)); Path "/media";
                         Path "/mnt";
                         Path ("/run/media/" +:+ format_user (user h)) ] ->
                   m ∈ [ ["media"] ++ Path (format_user (user h));
                         ["media"]; ["mnt"];
                         ["run"; "media"] ++ Path (format_user (user h)) ]).
        { intros m Hm. destruct (Path_under (format_user (user h)))
            as [E1 [E2 [E3 [E4 _]]]].
          now rewrite E1, E2, E3, E4 in Hm. }
        assert (Hnil : forall p' : path,
                   p' ∈ [] ->
                   p' <> []
                   /\ removelast p'
                      ∈ [ ["media"] ++ Path (format_user (user h));
                          ["media"]; ["mnt"];
                          ["run"; "media"] ++ Path (format_user (user h)) ]).
        { intros p' Hp'. now apply elem_of_nil in Hp'. }
        destruct (linux_search_children h fs _ [] search_paths _ Hs Hnil Hroots p Hp)
          as [Hne Hr].
        split; [exact Hne|]. right. split; [reflexivity|exact Hr].
      + exists []. split; [congruence|].
        intros p Hp. now apply elem_of_nil in Hp. }
  destruct Hloop as [search_paths [Hloop Hall]].
  apply find_loop_from_search_paths in Hloop as [Hd Hv].
  destruct Hfound as [Hf|Hf].
  - destruct (Hd found Hf) as [p [Hp [-> [Hdir Hex]]]].
    destruct (Hall p Hp) as [Hne Hroot]. exists p. auto 10.
  - destruct (Hv found Hf) as [p [Hp [-> [Hdir Hex]]]].
    destruct (Hall p Hp) as [Hne Hroot]. exists p. auto 10.
Qed.

Lemma find_sd_card_paths_on_mounted_volume_witness :
  exists p,
    (Some ["media"; "ana"; "A"; "DCIM"] = Some ["media"; "ana"; "A"; "DCIM"]
     /\ ["media"; "ana"; "A"; "DCIM"] = joinpath p "DCIM"
     \/ Some ["media"; "ana"; "B"; "PRIVATE"; "M4ROOT"; "CLIP"]
        = Some ["media"; "ana"; "A"; "DCIM"]
        /\ ["media"; "ana"; "A"; "DCIM"]
           = joinpath (joinpath (joinpath p "PRIVATE") "M4ROOT") "CLIP")
    /\ is_dir Sample.mounted p = true
    /\ exists_ Sample.mounted ["media"; "ana"; "A"; "DCIM"] = true
    /\ p <> []
    /\ (platform Sample.linux_host = "darwin" /\ removelast p = ["Volumes"]
        \/ String.prefix "linux" (platform Sample.linux_host) = true
           /\ removelast p
              ∈ [ ["media"] ++ Path (format_user (user Sample.linux_host));
                  ["media"]; ["mnt"];
                  ["run"; "media"] ++ Path (format_user (user Sample.linux_host)) ]).
Proof.
  apply (find_sd_card_paths_on_mounted_volume Sample.linux_host Sample.mounted
           (Some ["media"; "ana"; "A"; "DCIM"])
           (Some ["media"; "ana"; "B"; "PRIVATE"; "M4ROOT"; "CLIP"])).
  - vm_compute. reflexivity.
  - left. reflexivity.
Defined.

(** ** Dry runs *)

(** In a dry run a call of [organize_media] changes nothing but the
    counters [copied] and [skipped]. *)
Lemma organize_media_dry (self : MediaImporter) (fs : filesystem)
    (media_path : path) (file_type : string) :
  dry_run self = true ->
  snd (organize_media self fs media_path file_type) = fs
  /\ dry_run (snd (fst (organize_media self fs media_path file_type))) = true
  /\ total_size (stats (snd (fst (organize_media self fs media_path file_type))))
     = total_size (stats self)
  /\ errors (stats (snd (fst (organize_media self fs media_path file_type))))
     = errors (stats self).
Proof.
  intros Hdry.
  destruct (organize_media_cases self fs media_path file_type)
    as [H|[H|[dd [df H]]]]; rewrite H.
  - auto.
  - auto.
  - unfold copy_step. rewrite Hdry. auto.
Qed.

Lemma process_files_dry (files : list (path * string)) :
  forall (self : MediaImporter) (fs : filesystem),
    dry_run self = true ->
    nodes (snd (process_files self fs files)) = nodes fs
    /\ total_size (stats (snd (fst (process_files self fs files))))
       = total_size (stats self)
    /\ errors (stats (snd (fst (process_files self fs files))))
       = errors (stats self).
Proof.
  induction files as [|[p t] files IH]; intros self fs Hdry.
  - simpl. auto.
  - cbn [process_files].
    destruct (organize_media_dry self fs p t Hdry) as [Hfs [Hd [Ht He]]].
    destruct (organize_media self fs p t) as [[[b| |] self1] fs1];
      cbn [fst snd] in *; subst fs1.
    + destruct (IH self1 (tick fs) Hd) as [H1 [H2 H3]].
      rewrite H1, H2, H3. auto.
    + auto.
    + auto.
Qed.

(** X17: a dry run of [import_media] leaves every file and directory as
    it was, whatever the candidates and however the run ends; it adds
    nothing to [total_size] and counts no error: each candidate is
    counted as copied or as skipped. *)
Theorem dry_run_changes_no_file (self : MediaImporter) (fs : filesystem) :
  dry_run self = true ->
  nodes (snd (import_media self fs)) = nodes fs
  /\ total_size (stats (snd (fst (import_media self fs)))) = total_size (stats self)
  /\ errors (stats (snd (fst (import_media self fs)))) = errors (stats self).
Proof.
  intros Hdry. unfold import_media.
  destruct (negb _); [auto|]. cbn zeta.
  destruct (find_all_media self fs) as [|c files]; [auto|].
  destruct (process_files_dry (c :: files) self (tick fs) Hdry) as [H1 [H2 H3]].
  destruct (process_files self (tick fs) (c :: files)) as [[[[]| |] self1] fs1];
    cbn [fst snd] in *; auto.
Qed.

Lemma dry_run_changes_no_file_witness :
  nodes (snd (import_media (Sample.importer true) Sample.collision_world))
  = nodes Sample.collision_world
  /\ total_size (stats (snd (fst (import_media (Sample.importer true)
                                    Sample.collision_world))))
     = total_size (stats (Sample.importer true))
  /\ errors (stats (snd (fst (import_media (Sample.importer true)
                                Sample.collision_world))))
     = errors (stats (Sample.importer true)).
Proof.
  apply (dry_run_changes_no_file (Sample.importer true) Sample.collision_world).
  reflexivity.
Defined.

(** ** The command line *)


(** X18: without [--source], [--video-source] has no effect: the photo
    and the video folder are both the ones found on the mounted
    volumes. *)
Theorem video_source_needs_source (h : host) (args : arguments) (fs : filesystem)
    (video : option path) :
  arg_source args = None ->
  main h (mk_arguments (arg_destination args) None video (arg_dry_run args)
                       (arg_verbose args)) fs
  = main h args fs.
Proof.
  intros Hsrc. unfold main. cbn [arg_source arg_destination arg_dry_run].
  rewrite Hsrc. reflexivity.
Qed.

Lemma video_source_needs_source_witness :
  main Sample.linux_host
       (mk_arguments Sample.dest None (Some ["elsewhere"]) false false) Sample.mounted
  = main Sample.linux_host
         (mk_arguments Sample.dest None None false false) Sample.mounted.
Proof.
  apply (video_source_needs_source Sample.linux_host
           (mk_arguments Sample.dest None None false false) Sample.mounted
           (Some ["elsewhere"])).
  reflexivity.
Defined.


